(** * Stock analysis service (app.py): returns, Sharpe ratio, correlation

    A shallow embedding of [src/app.py] and a proof of the properties its
    specification states.

    Numbers.  The program computes with binary64 values through pandas and
    numpy.  They are modelled here by [float]: a real number, one of the two
    infinities, or NaN.  Arithmetic is exact on the finite values (no rounding,
    no overflow, no signed zero) and follows IEEE 754 for the special values:
    [0/0], [inf - inf] and [0 * inf] are NaN, [x/0] is an infinity for
    [x <> 0], and every comparison with NaN is false.  This is the level at
    which the specification states its formulas.

    Effects.  The market-data provider is a pair of functions that see the
    list of calls made so far; code that talks to it runs in a small state and
    exception monad [M] whose state is that list. *)

From Stdlib Require Import String Ascii.
From Stdlib Require Import Reals Lra List Bool Arith ZArith Lia.
From Stdlib Require Import Permutation Sorted.
Import ListNotations.

Local Open Scope R_scope.

(** ** Floating-point values *)

Inductive float : Type :=
| NaN
| PInf
| NInf
| Fin (r : R).

Module Float.

Definition isnan (x : float) : bool :=
  match x with NaN => true | _ => false end.

Definition notna (x : float) : bool := negb (isnan x).

Definition of_nat (n : nat) : float := Fin (INR n).

Definition neg (x : float) : float :=
  match x with
  | NaN => NaN
  | PInf => NInf
  | NInf => PInf
  | Fin r => Fin (- r)
  end.

Definition add (x y : float) : float :=
  match x, y with
  | NaN, _ | _, NaN => NaN
  | PInf, NInf | NInf, PInf => NaN
  | PInf, _ | _, PInf => PInf
  | NInf, _ | _, NInf => NInf
  | Fin a, Fin b => Fin (a + b)
  end.

Definition sub (x y : float) : float := add x (neg y).

(** The infinity carrying the sign of [r]; NaN for [r = 0]. *)
Definition signed_inf (r : R) : float :=
  if Req_dec_T r 0 then NaN
  else if Rlt_dec 0 r then PInf else NInf.

Definition mul (x y : float) : float :=
  match x, y with
  | NaN, _ | _, NaN => NaN
  | PInf, PInf | NInf, NInf => PInf
  | PInf, NInf | NInf, PInf => NInf
  | PInf, Fin r | Fin r, PInf => signed_inf r
  | NInf, Fin r | Fin r, NInf => signed_inf (- r)
  | Fin a, Fin b => Fin (a * b)
  end.

Definition div (x y : float) : float :=
  match x, y with
  | NaN, _ | _, NaN => NaN
  | (PInf | NInf), (PInf | NInf) => NaN
  | PInf, Fin r => if Rlt_dec r 0 then NInf else PInf
  | NInf, Fin r => if Rlt_dec r 0 then PInf else NInf
  | Fin _, (PInf | NInf) => Fin 0
  | Fin a, Fin b => if Req_dec_T b 0 then signed_inf a else Fin (a / b)
  end.

Definition sqrt (x : float) : float :=
  match x with
  | NaN | NInf => NaN
  | PInf => PInf
  | Fin r => if Rlt_dec r 0 then NaN else Fin (sqrt r)
  end.

(** Python's [==] and [<] on floats: false as soon as one side is NaN. *)
Definition eqb (x y : float) : bool :=
  match x, y with
  | PInf, PInf | NInf, NInf => true
  | Fin a, Fin b => if Req_dec_T a b then true else false
  | _, _ => false
  end.

Definition ltb (x y : float) : bool :=
  match x, y with
  | NaN, _ | _, NaN => false
  | _, NInf | PInf, _ => false
  | NInf, _ | _, PInf => true
  | Fin a, Fin b => if Rlt_dec a b then true else false
  end.

(** [np.clip(x, lo, hi)] for finite bounds. *)
Definition clip (x : float) (lo hi : R) : float :=
  match x with
  | NaN => NaN
  | PInf => Fin hi
  | NInf => Fin lo
  | Fin r => Fin (Rmin (Rmax r lo) hi)
  end.

(** [x if not np.isnan(x) else 0.0] *)
Definition nan_to_zero (x : float) : float :=
  if isnan x then Fin 0 else x.

(** Left-to-right accumulation, as [sum] does. *)
Definition sum (l : list float) : float := fold_left add l (Fin 0).

End Float.

(** ** pandas: Series and the frames the program builds *)

(** A row label: the timestamp of an observation. *)
Definition date := Z.

(** A [pd.Series] of floats: its rows, label first, in storage order. *)
Definition Series := list (date * float).

(** What the provider hands back for a history request: a frame with an
    [Adj Close] column, or a frame of some other shape without it. *)
Inductive DataFrame : Type :=
| Frame (adj_close : Series)
| FrameOther (index : list date).

(** The frame with two columns produced by [pd.concat(..., axis=1)]. *)
Definition Frame2 := list (date * (float * float)).

(** What Python code can raise here. *)
Inductive exn : Type :=
| KeyError (key : string)
| IndexError
| InvalidIndexError (msg : string)
| ProviderError (msg : string).

Inductive outcome (A : Type) : Type :=
| Ret (a : A)
| Raise (e : exn).
Arguments Ret {A} a.
Arguments Raise {A} e.

Module Pandas.

Definition index {A} (s : list (date * A)) : list date := map fst s.
Definition values {A} (s : list (date * A)) : list A := map snd s.

(** [pd.Series(dtype='float64')] *)
Definition empty_series : Series := [].

(** [s.empty] *)
Definition empty {A} (s : list A) : bool :=
  match s with [] => true | _ => false end.

(** [df.empty] *)
Definition df_empty (df : DataFrame) : bool :=
  match df with
  | Frame s => empty s
  | FrameOther i => empty i
  end.

(** [df['Adj Close']] *)
Definition getitem_adj_close (df : DataFrame) : outcome Series :=
  match df with
  | Frame s => Ret s
  | FrameOther _ => Raise (KeyError "Adj Close")
  end.

(** [s.isna().all()] *)
Definition isna_all (s : Series) : bool :=
  forallb Float.isnan (values s).

(** [s.dropna()] *)
Definition dropna (s : Series) : Series :=
  filter (fun row => Float.notna (snd row)) s.

(** [s.pct_change()] is [s / s.shift(1) - 1]: [prev] is the shifted value,
    NaN at the first row.  (Older pandas releases first fill a missing value
    with the last value before it; that step is left out, and changes nothing
    for a series whose only missing value is the first.) *)
Fixpoint pct_from (prev : float) (s : Series) : Series :=
  match s with
  | [] => []
  | (d, x) :: rest =>
      (d, Float.sub (Float.div x prev) (Fin 1)) :: pct_from x rest
  end.

Definition pct_change (s : Series) : Series := pct_from NaN s.

(** [s - c] *)
Definition sub_scalar (s : Series) (c : float) : Series :=
  map (fun row => (fst row, Float.sub (snd row) c)) s.

(** The values [mean] and [std] look at: [skipna=True]. *)
Definition valid (s : Series) : list float :=
  filter Float.notna (values s).

(** [s.mean()] *)
Definition mean (s : Series) : float :=
  let v := valid s in
  match length v with
  | O => NaN
  | n => Float.div (Float.sum v) (Float.of_nat n)
  end.

(** [s.var()], with the default [ddof=1]: undefined unless two values are
    present. *)
Definition var (s : Series) : float :=
  let v := valid s in
  let count := length v in
  if (count <=? 1)%nat then NaN
  else
    let avg := Float.div (Float.sum v) (Float.of_nat count) in
    let sqr := map (fun x => let e := Float.sub avg x in Float.mul e e) v in
    Float.div (Float.sum sqr) (Float.of_nat (count - 1)).

(** [s.std()] *)
Definition std (s : Series) : float := Float.sqrt (var s).

(** [s.tolist()] *)
Definition tolist (s : Series) : list float := values s.

Fixpoint lookup (d : date) (s : Series) : float :=
  match s with
  | [] => NaN
  | (d', x) :: rest => if Z.eqb d d' then x else lookup d rest
  end.

Fixpoint has_dup (l : list date) : bool :=
  match l with
  | [] => false
  | d :: rest => existsb (Z.eqb d) rest || has_dup rest
  end.

(** [pd.concat([a, b], axis=1)].  Series with the same index are put side by
    side.  Otherwise both are reindexed on the union of the labels (those of
    [a], then the new ones of [b]), a missing cell being NaN, and
    reindexing a series with a repeated label raises. *)
Definition concat_axis1 (a b : Series) : outcome Frame2 :=
  if list_eq_dec Z.eq_dec (index a) (index b) then
    Ret (combine (index a) (combine (values a) (values b)))
  else if has_dup (index a) || has_dup (index b) then
    Raise (InvalidIndexError "Reindexing only valid with uniquely valued Index objects")
  else
    let extra := filter (fun d => negb (existsb (Z.eqb d) (index a))) (index b) in
    Ret (map (fun d => (d, (lookup d a, lookup d b))) (index a ++ extra)).

(** [df.dropna()]: keeps the rows without a missing cell. *)
Definition dropna2 (f : Frame2) : Frame2 :=
  filter (fun row => Float.notna (fst (snd row)) && Float.notna (snd (snd row))) f.

(** [df.iloc[:, 0]] and [df.iloc[:, 1]] *)
Definition col0 (f : Frame2) : Series := map (fun row => (fst row, fst (snd row))) f.
Definition col1 (f : Frame2) : Series := map (fun row => (fst row, snd (snd row))) f.

End Pandas.

(** ** numpy: the correlation coefficient *)

Module Numpy.

Definition dot (a b : list float) : float :=
  Float.sum (map (fun p => Float.mul (fst p) (snd p)) (combine a b)).

Definition average (a : list float) : float :=
  Float.div (Float.sum a) (Float.of_nat (length a)).

Definition center (a : list float) : list float :=
  let avg := average a in map (fun x => Float.sub x avg) a.

(** Entry of [np.cov] for the rows [a] and [b]: with one observation the
    normalisation factor is 0 and the entry is [0 * inf]. *)
Definition cov (a b : list float) : float :=
  let fact := (length a - 1)%nat in
  Float.mul (dot (center a) (center b))
            (Float.div (Fin 1) (Float.of_nat fact)).

(** [np.corrcoef(a, b)[0, 1]]: the covariance divided by the standard
    deviation of [a], then by that of [b], then clipped to [-1, 1]. *)
Definition corrcoef (a b : list float) : float :=
  let c := cov a b in
  let stddev_a := Float.sqrt (cov a a) in
  let stddev_b := Float.sqrt (cov b b) in
  Float.clip (Float.div (Float.div c stddev_a) stddev_b) (-1) 1.

End Numpy.

(** [a.corr(b)] for two columns of one frame (Pearson, [min_periods=1]): the
    rows with a missing cell are left out, and the result is NaN when none
    remains. *)
Definition corr (a b : Series) : float :=
  let rows := filter (fun p => Float.notna (fst p) && Float.notna (snd p))
                     (combine (Pandas.values a) (Pandas.values b)) in
  match rows with
  | [] => NaN
  | _ => Numpy.corrcoef (map fst rows) (map snd rows)
  end.

(** ** The market-data provider and the monad of the program *)

(** A request sent to the provider: [stock.history(period='1d')], or
    [stock.history(start=..., end=..., interval='1mo')]. *)
Inductive call : Type :=
| Probe (ticker : string)
| Monthly (ticker start_date end_date : string).

(** The calls made so far, oldest first. *)
Definition world := list call.

(** The provider answers a request with a frame or by raising; its answer may
    depend on everything it was asked before. *)
Record Provider : Type := {
  history_1d : world -> string -> outcome DataFrame;
  history_1mo : world -> string -> string -> string -> outcome DataFrame
}.

Definition M (A : Type) : Type := world -> outcome A * world.

Definition ret {A} (a : A) : M A := fun w => (Ret a, w).

Definition raise {A} (e : exn) : M A := fun w => (Raise e, w).

Definition bind {A B} (m : M A) (k : A -> M B) : M B :=
  fun w =>
    match m w with
    | (Ret a, w') => k a w'
    | (Raise e, w') => (Raise e, w')
    end.

Definition lift {A} (o : outcome A) : M A := fun w => (o, w).

(** [try: body  except Exception as e: handler] *)
Definition try_except {A} (body : M A) (handler : exn -> M A) : M A :=
  fun w =>
    match body w with
    | (Ret a, w') => (Ret a, w')
    | (Raise e, w') => handler e w'
    end.

Declare Scope monad_scope.
Delimit Scope monad_scope with monad.
Notation "x <- m ;; k" := (bind m (fun x => k))
  (at level 61, m at next level, right associativity) : monad_scope.
Notation "' p <- m ;; k" := (bind m (fun x => let p := x in k))
  (at level 61, p pattern, m at next level, right associativity) : monad_scope.
Local Open Scope monad_scope.

Section App.

Variable P : Provider.

Definition probe (ticker : string) : M DataFrame :=
  fun w => (history_1d P w ticker, w ++ [Probe ticker]).

Definition monthly (ticker start_date end_date : string) : M DataFrame :=
  fun w => (history_1mo P w ticker start_date end_date,
            w ++ [Monthly ticker start_date end_date]).

(** ** [calculate_sharpe_ratio] *)

Definition default_risk_free_rate : float := Fin (2 / 100).

Definition calculate_sharpe_ratio (returns : Series) (risk_free_rate : float) : float :=
  if Pandas.empty returns || Pandas.isna_all returns then Fin 0
  else
    let excess_returns :=
      Pandas.sub_scalar returns (Float.div risk_free_rate (Fin 12)) in
    if Float.eqb (Pandas.std excess_returns) (Fin 0) then Fin 0
    else
      Float.mul (Float.sqrt (Fin 12))
                (Float.div (Pandas.mean excess_returns) (Pandas.std excess_returns)).

(** ** [get_monthly_returns] *)

(** [df['Adj Close'].pct_change().dropna()] on the column. *)
Definition adj_close_returns (adj_close : Series) : Series :=
  Pandas.dropna (Pandas.pct_change adj_close).

Definition get_monthly_returns (ticker start_date end_date : string) : M Series :=
  try_except
    (daily_data <- probe ticker ;;
     if Pandas.df_empty daily_data then ret Pandas.empty_series
     else
       df <- monthly ticker start_date end_date ;;
       if Pandas.df_empty df then ret Pandas.empty_series
       else
         adj_close <- lift (Pandas.getitem_adj_close df) ;;
         ret (adj_close_returns adj_close))
    (fun _ => ret Pandas.empty_series).

End App.

(** ** Python values used by the handler *)

(** A [dict] from ticker to correlation: its items in insertion order.
    Assigning to a key that is present replaces the value where it stands. *)
Definition dict := list (string * float).

Fixpoint dict_set (k : string) (v : float) (d : dict) : dict :=
  match d with
  | [] => [(k, v)]
  | (k', v') :: rest =>
      if String.eqb k k' then (k', v) :: rest else (k', v') :: dict_set k v rest
  end.

(** [sorted(items, key=lambda x: x[1])].  The list is built by insertion from
    the right, comparing keys with [<] only: an item moves left past the items
    whose key is greater than its own, so that items with equal keys keep
    their order.  [insert_sorted] works on the reversed prefix.  This is the
    result of Python's stable sort whenever no key is NaN, and also whenever
    no item is less than the one before it, in which case the list is a
    single run and is returned as it is. *)
Fixpoint insert_sorted (x : string * float) (racc : list (string * float))
  : list (string * float) :=
  match racc with
  | [] => [x]
  | y :: rest =>
      if Float.ltb (snd x) (snd y) then y :: insert_sorted x rest
      else x :: racc
  end.

Definition sorted (items : list (string * float)) : list (string * float) :=
  rev (fold_left (fun racc x => insert_sorted x racc) items []).

(** [repr] of a list of plain strings, as an f-string prints it. *)
Definition repr_str (s : string) : string := ("'" ++ s ++ "'")%string.

Definition repr_list (l : list string) : string :=
  ("[" ++ String.concat ", " (map repr_str l) ++ "]")%string.

(** [str(e)] *)
Definition str_exn (e : exn) : string :=
  match e with
  | KeyError k => repr_str k
  | IndexError => "list index out of range"
  | InvalidIndexError msg => msg
  | ProviderError msg => msg
  end.

(** ** The response *)

Record TickerResult : Type := {
  ticker : string;
  correlation : float;
  sharpe_ratio : float;
  returns : list float
}.

Record AnalysisResult : Type := {
  stockData : list TickerResult;
  benchmarkReturns : list float;
  benchmarkUsed : option string;
  highestCorrTicker : string;
  lowestCorrTicker : string
}.

(** The JSON body with its status code. *)
Inductive Response : Type :=
| Resp200 (body : AnalysisResult)
| Resp400 (error : string)
| Resp500 (error : string).

(** ** [get_stock_analysis] *)

Section Handler.

Variable P : Provider.

(** The window read from the clock when the request starts. *)
Variables start_date end_date : string.

Definition benchmark_options : list string := ["^IXIC"%string; "^GSPC"%string].

(** The loop over the benchmark candidates; returning is the [break]. *)
Fixpoint benchmark_loop (options : list string)
         (benchmark_returns : Series) (benchmark_used : option string)
  : M (Series * option string) :=
  match options with
  | [] => ret (benchmark_returns, benchmark_used)
  | benchmark :: rest =>
      fetched <- get_monthly_returns P benchmark start_date end_date ;;
      if negb (Pandas.empty fetched) then ret (fetched, Some benchmark)
      else benchmark_loop rest fetched benchmark_used
  end.

(** The correlation of one ticker with the benchmark, before it is
    cleaned for the response. *)
Definition ticker_correlation (stock_returns benchmark_returns : Series) : M float :=
  if negb (Pandas.empty stock_returns) && negb (Pandas.empty benchmark_returns) then
    joined <- lift (Pandas.concat_axis1 stock_returns benchmark_returns) ;;
    let aligned_data := Pandas.dropna2 joined in
    if negb (Pandas.empty aligned_data) then
      ret (corr (Pandas.col0 aligned_data) (Pandas.col1 aligned_data))
    else ret (Fin 0)
  else ret (Fin 0).

Definition clean (l : list float) : list float := map Float.nan_to_zero l.

Definition ticker_result (t : string) (correlation sharpe : float)
           (stock_returns : Series) : TickerResult :=
  {| ticker := t;
     correlation := Float.nan_to_zero correlation;
     sharpe_ratio := Float.nan_to_zero sharpe;
     returns := clean (Pandas.tolist stock_returns) |}.

(** The body of the loop over the tickers. *)
Definition process_ticker (benchmark_returns : Series) (t : string)
  : M (TickerResult * float) :=
  stock_returns <- get_monthly_returns P t start_date end_date ;;
  correlation <- ticker_correlation stock_returns benchmark_returns ;;
  let sharpe := calculate_sharpe_ratio stock_returns default_risk_free_rate in
  ret (ticker_result t correlation sharpe stock_returns, correlation).

Fixpoint ticker_loop (benchmark_returns : Series) (tickers : list string)
         (results : list TickerResult) (correlations : dict)
  : M (list TickerResult * dict) :=
  match tickers with
  | [] => ret (results, correlations)
  | t :: rest =>
      '(result, correlation) <- process_ticker benchmark_returns t ;;
      ticker_loop benchmark_returns rest
                  (results ++ [result]) (dict_set t correlation correlations)
  end.

(** [tickers[0]] *)
Definition first_ticker (tickers : list string) : M string :=
  match tickers with
  | [] => raise IndexError
  | t :: _ => ret t
  end.

(** [data['tickers']]: the body may lack the key. *)
Definition request_tickers (data : option (list string)) : M (list string) :=
  match data with
  | Some tickers => ret tickers
  | None => raise (KeyError "tickers")
  end.

Definition benchmark_error : string :=
  ("Unable to fetch benchmark data. Tried " ++ repr_list benchmark_options
     ++ ". Please try again later.")%string.

Definition analysis (data : option (list string)) : M Response :=
  tickers <- request_tickers data ;;
  '(benchmark_returns, benchmark_used) <-
    benchmark_loop benchmark_options Pandas.empty_series None ;;
  if Pandas.empty benchmark_returns then ret (Resp400 benchmark_error)
  else
    '(results, correlations) <- ticker_loop benchmark_returns tickers [] [] ;;
    let sorted_correlations := sorted correlations in
    lowest_corr_ticker <-
      match sorted_correlations with
      | [] => first_ticker tickers
      | first :: _ => ret (fst first)
      end ;;
    highest_corr_ticker <-
      match sorted_correlations with
      | [] => first_ticker tickers
      | first :: _ => ret (fst (last sorted_correlations first))
      end ;;
    ret (Resp200 {| stockData := results;
                    benchmarkReturns := clean (Pandas.tolist benchmark_returns);
                    benchmarkUsed := benchmark_used;
                    highestCorrTicker := highest_corr_ticker;
                    lowestCorrTicker := lowest_corr_ticker |}).

(** The handler: whatever escapes [analysis] becomes a 500. *)
Definition get_stock_analysis (data : option (list string)) (w : world)
  : Response * world :=
  match analysis data w with
  | (Ret response, w') => (response, w')
  | (Raise e, w') => (Resp500 ("Error in analysis: " ++ str_exn e)%string, w')
  end.

End Handler.

(** ** The formulas of the specification, on real numbers *)

Module Stat.

Definition rsum (l : list R) : R := fold_right Rplus 0 l.

Definition rmean (l : list R) : R := rsum l / INR (length l).

(** Sum of the squared deviations from the mean. *)
Definition sqdev (l : list R) : R :=
  rsum (map (fun x => (x - rmean l) * (x - rmean l)) l).

(** Sum of the products of the deviations. *)
Definition codev (a b : list R) : R :=
  rsum (map (fun p => (fst p - rmean a) * (snd p - rmean b)) (combine a b)).

(** Sample standard deviation: the divisor is [n - 1]. *)
Definition sample_std (l : list R) : R :=
  sqrt (sqdev l / (INR (length l) - 1)).

(** Annualised Sharpe ratio of monthly returns. *)
Definition sharpe (annual_risk_free_rate : R) (monthly : list R) : R :=
  let excess := map (fun x => x - annual_risk_free_rate / 12) monthly in
  sqrt 12 * (rmean excess / sample_std excess).

(** Pearson correlation coefficient. *)
Definition pearson (a b : list R) : R :=
  codev a b / (sqrt (sqdev a) * sqrt (sqdev b)).

End Stat.

(** A series of finite prices. *)
Definition priced (ps : list (date * R)) : Series :=
  map (fun row => (fst row, Fin (snd row))) ps.

(** The calls that a fetch of [t] can add to the log. *)
Definition fetch_calls (t sd ed : string) (calls : list call) : Prop :=
  calls = [Probe t] \/ calls = [Probe t; Monthly t sd ed].



(** A ticker for which the provider never has data: whenever it is asked,
    the fetch ends with an empty series. *)
Definition fetch_fails (P : Provider) (sd ed t : string) : Prop :=
  forall w, fst (get_monthly_returns P t sd ed w) = Ret Pandas.empty_series.



(** Item [x] does not come after item [y] in ascending order of the keys:
    the key of [y] is not less than the key of [x]. *)
Definition key_le (x y : string * float) : Prop :=
  Float.ltb (snd y) (snd x) = false.

Definition key_defined (x : string * float) : Prop := snd x <> NaN.

(** ** Sample market data *)

Module Sample.

(** Prices 1, 2, 6: monthly returns 1 and 2. *)
Definition rising : Series := [(1%Z, Fin 1); (2%Z, Fin 2); (3%Z, Fin 6)].

(** Prices 1, 3, 6: monthly returns 2 and 1. *)
Definition slowing : Series := [(1%Z, Fin 1); (2%Z, Fin 3); (3%Z, Fin 6)].

(** A recent listing: two prices, one monthly return. *)
Definition recent : Series := [(2%Z, Fin 1); (3%Z, Fin 2)].

(** A history whose first adjusted close is missing. *)
Definition gapped : Series := [(1%Z, NaN); (2%Z, Fin 100); (3%Z, Fin 110)].

(** A history that starts with two null prices. *)
Definition halted : Series := [(1%Z, Fin 0); (2%Z, Fin 0); (3%Z, Fin 5)].

Definition history_of (symbol : string) : outcome DataFrame :=
  if String.eqb symbol "^IXIC" then Ret (Frame rising)
  else if String.eqb symbol "UP" then Ret (Frame rising)
  else if String.eqb symbol "NEW" then Ret (Frame recent)
  else if String.eqb symbol "DOWN" then Ret (Frame slowing)
  else if String.eqb symbol "ODD" then Ret (FrameOther [1%Z; 2%Z])
  else if String.eqb symbol "ERR" then Raise (ProviderError "connection reset")
  else Ret (Frame []).

(** A provider that knows the NASDAQ index and a few symbols. *)
Definition market : Provider :=
  {| history_1d := fun _ symbol => history_of symbol;
     history_1mo := fun _ symbol _ _ => history_of symbol |}.

(** A provider that only has the S&P 500 index. *)
Definition sp_only : Provider :=
  {| history_1d := fun _ symbol =>
       if String.eqb symbol "^GSPC" then Ret (Frame rising) else Ret (Frame []);
     history_1mo := fun _ symbol _ _ =>
       if String.eqb symbol "^GSPC" then Ret (Frame rising) else Ret (Frame []) |}.

(** A provider that has nothing. *)
Definition outage : Provider :=
  {| history_1d := fun _ _ => Ret (Frame []);
     history_1mo := fun _ _ _ _ => Ret (Frame []) |}.

(** The returns of the histories above. *)
Definition rising_returns : Series := priced [(2%Z, 2 / 1 - 1); (3%Z, 6 / 2 - 1)].
Definition slowing_returns : Series := priced [(2%Z, 3 / 1 - 1); (3%Z, 6 / 3 - 1)].
Definition recent_returns : Series := priced [(3%Z, 2 / 1 - 1)].

(** A request for an established stock, a recent listing and a stock that
    moves against the index. *)
Definition watchlist : list string := ["UP"%string; "NEW"%string; "DOWN"%string].

Definition start_date : string := "2025-01-01".
Definition end_date : string := "2026-01-01".

End Sample.

(** ** Further notions used by the properties of the handler *)

(** The requests a fetch of [t] sends, given what the probe answered: the
    monthly history is asked for only after a probe that is not empty. *)
Definition probe_has_data (P : Provider) (w : world) (t : string) : bool :=
  match history_1d P w t with
  | Ret daily => negb (Pandas.df_empty daily)
  | Raise _ => false
  end.

(** No item has a key less than the key of the item before it. *)
Fixpoint non_descending (items : list (string * float)) : bool :=
  match items with
  | [] => true
  | x :: rest =>
      match rest with
      | [] => true
      | y :: _ => negb (Float.ltb (snd y) (snd x)) && non_descending rest
      end
  end.




(** The result of a ticker for which nothing could be fetched. *)
Definition failed_result (t : string) : TickerResult :=
  {| ticker := t; correlation := Fin 0; sharpe_ratio := Fin 0; returns := [] |}.

(** * Properties *)

(** Case analysis on the comparisons of real numbers left in the goal. *)
Ltac decide_reals :=
  repeat match goal with
         | |- context [Req_dec_T ?a ?b] => destruct (Req_dec_T a b)
         | |- context [Rlt_dec ?a ?b] => destruct (Rlt_dec a b)
         end.

(** ** The provider boundary *)

Lemma get_monthly_returns_unfold (P : Provider) (t sd ed : string) (w : world) :
  get_monthly_returns P t sd ed w =
  match history_1d P w t with
  | Raise _ => (Ret [], w ++ [Probe t])
  | Ret daily =>
      if Pandas.df_empty daily then (Ret [], w ++ [Probe t])
      else
        let w2 := (w ++ [Probe t]) ++ [Monthly t sd ed] in
        match history_1mo P (w ++ [Probe t]) t sd ed with
        | Raise _ => (Ret [], w2)
        | Ret (Frame s) =>
            if Pandas.empty s then (Ret [], w2) else (Ret (adj_close_returns s), w2)
        | Ret (FrameOther _) => (Ret [], w2)
        end
  end.
Proof.
  unfold get_monthly_returns, try_except, bind, probe, monthly, lift, ret.
  destruct (history_1d P w t) as [daily|e]; [|reflexivity].
  destruct (Pandas.df_empty daily); [reflexivity|].
  destruct (history_1mo P (w ++ [Probe t]) t sd ed) as [[s|i]|e]; simpl.
  - destruct (Pandas.empty s); reflexivity.
  - destruct (Pandas.empty i); reflexivity.
  - reflexivity.
Qed.

(** A fetch always returns a series, and only asks about its own symbol. *)
Lemma get_monthly_returns_total (P : Provider) (t sd ed : string) (w : world) :
  exists s calls,
    get_monthly_returns P t sd ed w = (Ret s, w ++ calls) /\ fetch_calls t sd ed calls.
Proof.
  rewrite get_monthly_returns_unfold. unfold fetch_calls.
  destruct (history_1d P w t) as [daily|e].
  2:{ exists [], [Probe t]. auto. }
  destruct (Pandas.df_empty daily).
  { exists [], [Probe t]. auto. }
  cbv zeta. rewrite <- app_assoc. simpl.
  destruct (history_1mo P (w ++ [Probe t]) t sd ed) as [[s|i]|e].
  - destruct (Pandas.empty s); eexists; eexists; split; eauto.
  - eexists; eexists; split; eauto.
  - eexists; eexists; split; eauto.
Qed.



(** ** Benchmark selection *)

Lemma empty_false_iff {A} (s : list A) : Pandas.empty s = false <-> s <> [].
Proof. destruct s; simpl; split; congruence. Qed.

(** C4. The benchmark candidates are tried in the order ^IXIC, ^GSPC.  When
    the series of ^IXIC is not empty it is used and nothing is asked about
    ^GSPC; otherwise ^GSPC is fetched and used if its series is not empty;
    when both are empty the response is a 400 whose message names the two
    symbols, and the provider has been asked about the two candidates only:
    no ticker is processed. *)
Theorem benchmark_selection (P : Provider) (sd ed : string) (w : world) :
  benchmark_options = ["^IXIC"%string; "^GSPC"%string] /\
  benchmark_error =
    "Unable to fetch benchmark data. Tried ['^IXIC', '^GSPC']. Please try again later."%string /\
  exists r1 c1,
    get_monthly_returns P "^IXIC" sd ed w = (Ret r1, w ++ c1) /\
    fetch_calls "^IXIC" sd ed c1 /\
    (r1 <> [] ->
     benchmark_loop P sd ed benchmark_options Pandas.empty_series None w
       = (Ret (r1, Some "^IXIC"%string), w ++ c1)) /\
    (r1 = [] ->
     exists r2 c2,
       get_monthly_returns P "^GSPC" sd ed (w ++ c1) = (Ret r2, w ++ c1 ++ c2) /\
       fetch_calls "^GSPC" sd ed c2 /\
       (r2 <> [] ->
        benchmark_loop P sd ed benchmark_options Pandas.empty_series None w
          = (Ret (r2, Some "^GSPC"%string), w ++ c1 ++ c2)) /\
       (r2 = [] ->
        forall tickers,
          get_stock_analysis P sd ed (Some tickers) w
            = (Resp400 benchmark_error, w ++ c1 ++ c2))).
Proof.
  split; [reflexivity|]. split; [reflexivity|].
  destruct (get_monthly_returns_total P "^IXIC" sd ed w) as (r1 & c1 & E1 & F1).
  exists r1, c1. split; [exact E1|]. split; [exact F1|].
  split.
  - intros N. apply empty_false_iff in N.
    simpl. unfold bind. rewrite E1, N. reflexivity.
  - intros ->.
    destruct (get_monthly_returns_total P "^GSPC" sd ed (w ++ c1)) as (r2 & c2 & E2 & F2).
    rewrite <- app_assoc in E2.
    exists r2, c2. split; [exact E2|]. split; [exact F2|].
    split.
    + intros N. apply empty_false_iff in N.
      simpl. unfold bind. rewrite E1. simpl. rewrite E2, N. reflexivity.
    + intros -> tickers.
      unfold get_stock_analysis, analysis, request_tickers, bind, ret.
      simpl. unfold bind. rewrite E1. simpl. rewrite E2. reflexivity.
Qed.

Lemma benchmark_selection_witness :
  benchmark_loop Sample.market Sample.start_date Sample.end_date
                 benchmark_options Pandas.empty_series None []
    = (Ret (adj_close_returns Sample.rising, Some "^IXIC"%string),
       [Probe "^IXIC"; Monthly "^IXIC" Sample.start_date Sample.end_date]) /\
  benchmark_loop Sample.sp_only Sample.start_date Sample.end_date
                 benchmark_options Pandas.empty_series None []
    = (Ret (adj_close_returns Sample.rising, Some "^GSPC"%string),
       [Probe "^IXIC"; Probe "^GSPC";
        Monthly "^GSPC" Sample.start_date Sample.end_date]) /\
  get_stock_analysis Sample.outage Sample.start_date Sample.end_date
                     (Some ["UP"%string]) []
    = (Resp400 benchmark_error, [Probe "^IXIC"; Probe "^GSPC"]).
Proof.
  assert (N : adj_close_returns Sample.rising <> []).
  { unfold adj_close_returns, Sample.rising. simpl.
    destruct (Req_dec_T 1 0); [exfalso; lra|].
    simpl. discriminate. }
  split; [|split].
  - destruct (benchmark_selection Sample.market Sample.start_date Sample.end_date [])
      as (_ & _ & r1 & c1 & E1 & _ & H & _).
    rewrite get_monthly_returns_unfold in E1. simpl in E1.
    injection E1 as <- <-. exact (H N).
  - destruct (benchmark_selection Sample.sp_only Sample.start_date Sample.end_date [])
      as (_ & _ & r1 & c1 & E1 & _ & _ & H).
    rewrite get_monthly_returns_unfold in E1. simpl in E1.
    injection E1 as <- <-.
    destruct (H eq_refl) as (r2 & c2 & E2 & _ & H2 & _).
    rewrite get_monthly_returns_unfold in E2. simpl in E2.
    injection E2 as <- <-. exact (H2 N).
  - destruct (benchmark_selection Sample.outage Sample.start_date Sample.end_date [])
      as (_ & _ & r1 & c1 & E1 & _ & _ & H).
    rewrite get_monthly_returns_unfold in E1. simpl in E1.
    injection E1 as <- <-.
    destruct (H eq_refl) as (r2 & c2 & E2 & _ & _ & H2).
    rewrite get_monthly_returns_unfold in E2. simpl in E2.
    injection E2 as <- <-. exact (H2 eq_refl _).
Defined.

(** ** Returns from prices *)

Lemma pct_from_length (prev : float) (s : Series) :
  length (Pandas.pct_from prev s) = length s.
Proof.
  revert prev. induction s as [|[d x] rest IH]; intros prev; simpl; [reflexivity|].
  now rewrite IH.
Qed.

Lemma pct_from_index (prev : float) (s : Series) :
  Pandas.index (Pandas.pct_from prev s) = Pandas.index s.
Proof.
  revert prev. induction s as [|[d x] rest IH]; intros prev; simpl; [reflexivity|].
  now rewrite IH.
Qed.

Lemma div_nan_r (x : float) : Float.div x NaN = NaN.
Proof. destruct x; reflexivity. Qed.

(** The first row of [pct_change] is NaN, and [dropna] removes it. *)
Lemma adj_close_returns_cons (d : date) (x : float) (rest : Series) :
  adj_close_returns ((d, x) :: rest) = Pandas.dropna (Pandas.pct_from x rest).
Proof.
  unfold adj_close_returns, Pandas.pct_change. simpl.
  rewrite div_nan_r. reflexivity.
Qed.

Lemma dropna_length (s : Series) : (length (Pandas.dropna s) <= length s)%nat.
Proof. apply filter_length_le. Qed.

Lemma dropna_index_incl (s : Series) :
  incl (Pandas.index (Pandas.dropna s)) (Pandas.index s).
Proof.
  intros d H. apply in_map_iff in H as ((d', x) & <- & H).
  apply filter_In in H as [H _]. now apply (in_map fst) in H.
Qed.

(** On finite non-zero prices every return from the second row on is a
    number: nothing else is dropped. *)
Lemma pct_from_priced (p : R) (ps : list (date * R)) :
  p <> 0 ->
  Forall (fun row => snd row <> 0) ps ->
  Pandas.dropna (Pandas.pct_from (Fin p) (priced ps)) = Pandas.pct_from (Fin p) (priced ps).
Proof.
  revert p. induction ps as [|[d x] rest IH]; intros p Hp Hall; simpl; [reflexivity|].
  inversion Hall as [|? ? Hx Hrest]; subst. simpl in Hx.
  destruct (Req_dec_T p 0) as [E|_]; [contradiction|].
  simpl. f_equal. now apply IH.
Qed.

Lemma pct_from_priced_nth (p : R) (ps : list (date * R)) (t : nat) (d : date) (x : R) :
  p <> 0 ->
  Forall (fun row => snd row <> 0) ps ->
  nth_error ps t = Some (d, x) ->
  exists q, nth_error (p :: map snd ps) t = Some q /\
            nth_error (Pandas.pct_from (Fin p) (priced ps)) t
              = Some (d, Fin ((x - q) / q)).
Proof.
  revert p t. induction ps as [|[d' x'] rest IH]; intros p t Hp Hall Ht.
  { destruct t; discriminate. }
  inversion Hall as [|? ? Hx Hrest]; subst. simpl in Hx.
  destruct t as [|t].
  - simpl in Ht. injection Ht as -> ->. exists p. split; [reflexivity|].
    simpl. destruct (Req_dec_T p 0) as [E|_]; [contradiction|].
    simpl. do 3 f_equal. field. exact Hp.
  - simpl in Ht. destruct (IH x' t Hx Hrest Ht) as (q & Hq & Hn).
    exists q. split; [exact Hq|exact Hn].
Qed.

(** C3, as the code has it.  [dropna] removes every row whose return is
    undefined, not only the first: the return series is the rows of
    [pct_change] after the first whose value is not NaN, so it has at most
    [n - 1] entries.  When the prices are finite and non-zero it has exactly
    [n - 1] entries, the entry for row [t + 1] of the prices is
    [(price[t+1] - price[t]) / price[t]] under the date of row [t + 1], and,
    the dates being distinct, the first date has no entry. *)
Theorem returns_of_prices (prices : Series) :
  prices <> [] ->
  adj_close_returns prices = Pandas.dropna (tl (Pandas.pct_change prices)) /\
  (length (adj_close_returns prices) <= length prices - 1)%nat /\
  incl (Pandas.index (adj_close_returns prices)) (tl (Pandas.index prices)) /\
  forall ps : list (date * R),
    prices = priced ps ->
    Forall (fun row => snd row <> 0) ps ->
    length (adj_close_returns prices) = (length prices - 1)%nat /\
    Pandas.index (adj_close_returns prices) = tl (Pandas.index prices) /\
    (forall t d0 p0 d1 p1,
        nth_error ps t = Some (d0, p0) ->
        nth_error ps (S t) = Some (d1, p1) ->
        nth_error (adj_close_returns prices) t = Some (d1, Fin ((p1 - p0) / p0))) /\
    (NoDup (Pandas.index prices) ->
     forall d0 p0, nth_error ps 0 = Some (d0, p0) ->
                   ~ In d0 (Pandas.index (adj_close_returns prices))).
Proof.
  intros Hne. destruct prices as [|[d x] rest]; [congruence|clear Hne].
  rewrite adj_close_returns_cons.
  split; [|split; [|split]].
  - unfold Pandas.pct_change. reflexivity.
  - simpl. rewrite Nat.sub_0_r, <- (pct_from_length x rest). apply dropna_length.
  - simpl. rewrite <- (pct_from_index x rest). apply dropna_index_incl.
  - intros ps Eps Hall. destruct ps as [|[d' p] ps]; [discriminate|].
    simpl in Eps. injection Eps as -> -> ->.
    inversion Hall as [|? ? Hp Hrest]; subst. simpl in Hp.
    rewrite (pct_from_priced p ps Hp Hrest).
    split; [|split; [|split]].
    + simpl. now rewrite Nat.sub_0_r, pct_from_length.
    + simpl. now rewrite pct_from_index.
    + intros t d0 p0 d1 p1 H0 H1. simpl in H1.
      destruct (pct_from_priced_nth p ps t d1 p1 Hp Hrest H1) as (q & Hq & Hn).
      assert (q = p0) as <-.
      { change (p :: map snd ps) with (map snd ((d', p) :: ps)) in Hq.
        rewrite nth_error_map, H0 in Hq. simpl in Hq. congruence. }
      exact Hn.
    + intros Hnd d0 p0 H0. simpl in H0. injection H0 as <- <-.
      rewrite pct_from_index. simpl in Hnd. now inversion Hnd.
Qed.

Lemma returns_of_prices_witness :
  length (adj_close_returns Sample.rising) = 2%nat /\
  nth_error (adj_close_returns Sample.rising) 1 = Some (3%Z, Fin ((6 - 2) / 2)).
Proof.
  assert (Hne : Sample.rising <> []) by discriminate.
  assert (Hall : Forall (fun row : date * R => snd row <> 0)
                        [(1%Z, 1); (2%Z, 2); (3%Z, 6)]).
  { repeat constructor; simpl; lra. }
  destruct (returns_of_prices Sample.rising Hne) as (_ & _ & _ & H).
  destruct (H [(1%Z, 1); (2%Z, 2); (3%Z, 6)] eq_refl Hall) as (Hlen & _ & Hnth & _).
  split.
  - exact Hlen.
  - exact (Hnth 1%nat 2%Z 2 3%Z 6 eq_refl eq_refl).
Defined.

(** C3 as stated fails on a history whose first adjusted close is missing:
    three prices give one return, not two.  The same happens when the
    history starts with two null prices. *)
Lemma returns_of_prices_counterexample :
  Sample.gapped <> [] /\
  adj_close_returns Sample.gapped = [(3%Z, Fin (110 / 100 - 1))] /\
  length (adj_close_returns Sample.gapped) <> (length Sample.gapped - 1)%nat /\
  adj_close_returns Sample.halted = [(3%Z, PInf)] /\
  length (adj_close_returns Sample.halted) <> (length Sample.halted - 1)%nat.
Proof.
  assert (E : adj_close_returns Sample.gapped = [(3%Z, Fin (110 / 100 - 1))]).
  { unfold adj_close_returns, Sample.gapped. simpl.
    destruct (Req_dec_T 100 0); [exfalso; lra|].
    simpl. reflexivity. }
  assert (E' : adj_close_returns Sample.halted = [(3%Z, PInf)]).
  { unfold adj_close_returns, Sample.halted. simpl.
    unfold Float.signed_inf. decide_reals; try (exfalso; lra). reflexivity. }
  split; [discriminate|]. split; [exact E|].
  split; [rewrite E; simpl; discriminate|].
  split; [exact E'|]. rewrite E'. simpl. discriminate.
Qed.

(** ** The ticker list *)

(** C7, at the failing input.  With an empty ticker list and a benchmark that
    resolves, no ticker is processed, the map of correlations is empty, and
    the fallback [tickers[0]] raises: the response is a 500, not a success
    result. *)
Theorem empty_ticker_list_response (P : Provider) (sd ed : string) (w w1 : world)
        (benchmark_returns : Series) (benchmark_used : option string) :
  benchmark_loop P sd ed benchmark_options Pandas.empty_series None w
    = (Ret (benchmark_returns, benchmark_used), w1) ->
  benchmark_returns <> [] ->
  get_stock_analysis P sd ed (Some []) w
    = (Resp500 "Error in analysis: list index out of range", w1).
Proof.
  intros E N. apply empty_false_iff in N.
  unfold get_stock_analysis, analysis, request_tickers, ret.
  unfold bind at 1. unfold bind at 1. rewrite E. cbv beta iota zeta.
  rewrite N. reflexivity.
Qed.

(** ** Arithmetic on finite values *)

Lemma div_fin (a b : R) : b <> 0 -> Float.div (Fin a) (Fin b) = Fin (a / b).
Proof. intros H. simpl. destruct (Req_dec_T b 0); [contradiction|reflexivity]. Qed.

Lemma sqrt_fin (a : R) : 0 <= a -> Float.sqrt (Fin a) = Fin (sqrt a).
Proof. intros H. simpl. destruct (Rlt_dec a 0); [exfalso; lra|reflexivity]. Qed.



Lemma sum_fin_acc (l : list R) (a : R) :
  fold_left Float.add (map Fin l) (Fin a) = Fin (a + Stat.rsum l).
Proof.
  revert a. induction l as [|x l IH]; intros a; simpl.
  - f_equal. lra.
  - rewrite IH. f_equal. lra.
Qed.

Lemma sum_fin (l : list R) : Float.sum (map Fin l) = Fin (Stat.rsum l).
Proof. unfold Float.sum. rewrite sum_fin_acc. f_equal. lra. Qed.



Lemma INR_length_pos {A} (l : list A) : l <> [] -> 0 < INR (length l).
Proof.
  destruct l; [congruence|]. intros _. apply lt_0_INR. simpl. lia.
Qed.

(** ** Statistics of a series of finite values *)









(** ** The Sharpe ratio *)



(** ** Symmetry of the correlation *)






Lemma center_length (a : list float) : length (Numpy.center a) = length a.
Proof. unfold Numpy.center. apply length_map. Qed.







(** ** The correlation coefficient on finite values *)

Lemma map_fst_combine_eq {A B} (a : list A) (b : list B) :
  length a = length b -> map fst (combine a b) = a.
Proof.
  revert b. induction a as [|x a IH]; intros [|y b] E; simpl in *; try congruence.
  f_equal. apply IH. congruence.
Qed.

Lemma map_snd_combine_eq {A B} (a : list A) (b : list B) :
  length a = length b -> map snd (combine a b) = b.
Proof.
  revert b. induction a as [|x a IH]; intros [|y b] E; simpl in *; try congruence.
  f_equal. apply IH. congruence.
Qed.

Lemma combine_map_both {A B C D} (f : A -> C) (g : B -> D) (a : list A) (b : list B) :
  combine (map f a) (map g b) = map (fun p => (f (fst p), g (snd p))) (combine a b).
Proof.
  revert b. induction a as [|x a IH]; intros [|y b]; simpl; try reflexivity.
  now rewrite IH.
Qed.

Lemma average_fin (xs : list R) :
  xs <> [] -> Numpy.average (map Fin xs) = Fin (Stat.rmean xs).
Proof.
  intros Hne. unfold Numpy.average, Float.of_nat.
  rewrite sum_fin, length_map, div_fin; [reflexivity|].
  pose proof (INR_length_pos xs Hne). lra.
Qed.

Lemma center_fin (xs : list R) :
  xs <> [] ->
  Numpy.center (map Fin xs) = map Fin (map (fun x => x - Stat.rmean xs) xs).
Proof.
  intros Hne. unfold Numpy.center. rewrite average_fin by exact Hne.
  rewrite !map_map. reflexivity.
Qed.

Lemma dot_fin (us vs : list R) :
  Numpy.dot (map Fin us) (map Fin vs)
  = Fin (Stat.rsum (map (fun p => fst p * snd p) (combine us vs))).
Proof.
  unfold Numpy.dot. rewrite combine_map_both, map_map. simpl.
  rewrite <- (map_map (fun p : R * R => fst p * snd p) Fin). apply sum_fin.
Qed.

Lemma cov_fin (xs ys : list R) :
  (2 <= length xs)%nat ->
  length xs = length ys ->
  Numpy.cov (map Fin xs) (map Fin ys)
  = Fin (Stat.codev xs ys * (1 / (INR (length xs) - 1))).
Proof.
  intros Hlen E. unfold Numpy.cov. cbv zeta.
  assert (Hx : xs <> []) by (destruct xs; simpl in *; [lia|discriminate]).
  assert (Hy : ys <> []) by (destruct ys; simpl in *; [lia|discriminate]).
  rewrite !center_fin, dot_fin, length_map by assumption.
  assert (Hm : INR (length xs - 1) = INR (length xs) - 1).
  { rewrite minus_INR by lia. reflexivity. }
  assert (H2 : 2 <= INR (length xs)).
  { change 2 with (INR 2). apply le_INR. exact Hlen. }
  unfold Float.of_nat. rewrite div_fin by (rewrite Hm; lra).
  simpl. rewrite Hm. f_equal. f_equal.
  unfold Stat.codev. rewrite combine_map_both, map_map. reflexivity.
Qed.

Lemma codev_self (xs : list R) : Stat.codev xs xs = Stat.sqdev xs.
Proof.
  unfold Stat.codev, Stat.sqdev. f_equal.
  generalize (Stat.rmean xs) as m. intros m.
  induction xs as [|x xs IH]; [reflexivity|].
  simpl. f_equal. exact IH.
Qed.

(** The Cauchy-Schwarz inequality for sums over a list, from the sign of a
    quadratic. *)
Lemma quadratic_nonneg {A} (f g : A -> R) (l : list A) (t : R) :
  0 <= t * t * Stat.rsum (map (fun p => f p * f p) l)
       + 2 * t * Stat.rsum (map (fun p => f p * g p) l)
       + Stat.rsum (map (fun p => g p * g p) l).
Proof.
  induction l as [|p l IH]; simpl; [lra|].
  pose proof (Rle_0_sqr (t * f p + g p)) as H. unfold Rsqr in H. lra.
Qed.

Lemma cauchy_schwarz {A} (f g : A -> R) (l : list A) :
  0 < Stat.rsum (map (fun p => f p * f p) l) ->
  Stat.rsum (map (fun p => f p * g p) l) * Stat.rsum (map (fun p => f p * g p) l)
  <= Stat.rsum (map (fun p => f p * f p) l) * Stat.rsum (map (fun p => g p * g p) l).
Proof.
  set (a := Stat.rsum (map (fun p => f p * f p) l)).
  set (b := Stat.rsum (map (fun p => f p * g p) l)).
  set (c := Stat.rsum (map (fun p => g p * g p) l)).
  intros Ha.
  pose proof (quadratic_nonneg f g l (- b / a)) as H. fold a b c in H.
  assert (E : - b / a * (- b / a) * a + 2 * (- b / a) * b + c = (a * c - b * b) / a).
  { field. lra. }
  rewrite E in H.
  assert (H' : 0 <= (a * c - b * b) / a * a) by (apply Rmult_le_pos; lra).
  replace ((a * c - b * b) / a * a) with (a * c - b * b) in H' by (field; lra).
  lra.
Qed.

Lemma codev_bound (xs ys : list R) :
  length xs = length ys ->
  0 < Stat.sqdev xs ->
  Stat.codev xs ys * Stat.codev xs ys <= Stat.sqdev xs * Stat.sqdev ys.
Proof.
  intros E Ha.
  pose proof (cauchy_schwarz (fun p : R * R => fst p - Stat.rmean xs)
                             (fun p : R * R => snd p - Stat.rmean ys)
                             (combine xs ys)) as H.
  cbv beta in H.
  assert (Ex : Stat.rsum (map (fun p : R * R => (fst p - Stat.rmean xs) * (fst p - Stat.rmean xs))
                              (combine xs ys)) = Stat.sqdev xs).
  { unfold Stat.sqdev.
    rewrite <- (map_map fst (fun x => (x - Stat.rmean xs) * (x - Stat.rmean xs))).
    now rewrite map_fst_combine_eq. }
  assert (Ey : Stat.rsum (map (fun p : R * R => (snd p - Stat.rmean ys) * (snd p - Stat.rmean ys))
                              (combine xs ys)) = Stat.sqdev ys).
  { unfold Stat.sqdev.
    rewrite <- (map_map snd (fun x => (x - Stat.rmean ys) * (x - Stat.rmean ys))).
    now rewrite map_snd_combine_eq. }
  rewrite Ex, Ey in H. apply H. exact Ha.
Qed.

Lemma pearson_bounds (xs ys : list R) :
  length xs = length ys ->
  0 < Stat.sqdev xs -> 0 < Stat.sqdev ys ->
  -1 <= Stat.pearson xs ys <= 1.
Proof.
  intros E Ha Hc. pose proof (codev_bound xs ys E Ha) as Hb.
  unfold Stat.pearson.
  set (a := Stat.sqdev xs) in *. set (c := Stat.sqdev ys) in *.
  set (b := Stat.codev xs ys) in *.
  pose proof (sqrt_lt_R0 a Ha) as Hsa. pose proof (sqrt_lt_R0 c Hc) as Hsc.
  pose proof (sqrt_sqrt a (Rlt_le _ _ Ha)) as Eqa.
  pose proof (sqrt_sqrt c (Rlt_le _ _ Hc)) as Eqc.
  set (d := sqrt a * sqrt c).
  assert (Hd : 0 < d) by (apply Rmult_lt_0_compat; assumption).
  assert (Edd : d * d = a * c).
  { unfold d. transitivity ((sqrt a * sqrt a) * (sqrt c * sqrt c)); [ring|].
    now rewrite Eqa, Eqc. }
  assert (Hbd : - d <= b <= d) by (split; nra).
  pose proof (Rinv_0_lt_compat d Hd) as Hi.
  assert (Hq : b / d * d = b) by (field; lra).
  split; nra.
Qed.

(** On two sequences of numbers of the same length, at least two entries and
    non-zero spread, [np.corrcoef] is the Pearson coefficient. *)
Lemma corrcoef_fin (xs ys : list R) :
  (2 <= length xs)%nat ->
  length xs = length ys ->
  0 < Stat.sqdev xs -> 0 < Stat.sqdev ys ->
  Numpy.corrcoef (map Fin xs) (map Fin ys) = Fin (Stat.pearson xs ys).
Proof.
  intros Hlen E Ha Hc.
  pose proof (pearson_bounds xs ys E Ha Hc) as Hb.
  unfold Numpy.corrcoef. cbv zeta.
  rewrite (cov_fin xs ys Hlen E), (cov_fin xs xs Hlen eq_refl).
  rewrite (cov_fin ys ys) by congruence.
  rewrite !codev_self. rewrite <- E.
  assert (H2 : 2 <= INR (length xs)).
  { change 2 with (INR 2). apply le_INR. exact Hlen. }
  set (m := INR (length xs) - 1) in *.
  assert (Hm : 0 < m) by (unfold m; lra).
  pose proof (Rinv_0_lt_compat m Hm) as Hmi.
  set (a := Stat.sqdev xs) in *. set (c := Stat.sqdev ys) in *.
  assert (Hva : 0 < a * (1 / m)) by (unfold Rdiv; nra).
  assert (Hvc : 0 < c * (1 / m)) by (unfold Rdiv; nra).
  rewrite !sqrt_fin by lra.
  pose proof (sqrt_lt_R0 _ Hva) as Hsa. pose proof (sqrt_lt_R0 _ Hvc) as Hsc.
  rewrite !div_fin by lra.
  assert (Eval : Stat.codev xs ys * (1 / m) / sqrt (a * (1 / m)) / sqrt (c * (1 / m))
                 = Stat.pearson xs ys).
  { unfold Stat.pearson. fold a c.
    assert (Hsm : 0 < sqrt (1 / m)) by (apply sqrt_lt_R0; unfold Rdiv; nra).
    rewrite !sqrt_mult by (unfold Rdiv; nra).
    pose proof (sqrt_lt_R0 a Ha). pose proof (sqrt_lt_R0 c Hc).
    pose proof (sqrt_sqrt (1 / m)) as Esm.
    assert (Esm' : sqrt (1 / m) * sqrt (1 / m) = 1 / m) by (apply Esm; unfold Rdiv; nra).
    rewrite <- Esm' at 1. field. repeat split; lra. }
  rewrite Eval. simpl. f_equal.
  rewrite Rmax_left by lra. rewrite Rmin_left by lra. reflexivity.
Qed.

Lemma corr_fin (a b : Series) (xs ys : list R) :
  Pandas.values a = map Fin xs ->
  Pandas.values b = map Fin ys ->
  (2 <= length xs)%nat ->
  length xs = length ys ->
  0 < Stat.sqdev xs -> 0 < Stat.sqdev ys ->
  corr a b = Fin (Stat.pearson xs ys).
Proof.
  intros Ea Eb Hlen E Ha Hc. unfold corr. rewrite Ea, Eb, combine_map_both.
  assert (Hf : forall l : list (R * R),
             filter (fun p : float * float => Float.notna (fst p) && Float.notna (snd p))
                    (map (fun p : R * R => (Fin (fst p), Fin (snd p))) l)
             = map (fun p : R * R => (Fin (fst p), Fin (snd p))) l).
  { induction l as [|p l IH]; simpl; [reflexivity|]. now rewrite IH. }
  rewrite Hf, !map_map. cbn [fst snd].
  rewrite <- (map_map fst Fin), <- (map_map snd Fin).
  rewrite map_fst_combine_eq, map_snd_combine_eq by exact E.
  destruct xs as [|x xs]; [simpl in Hlen; lia|].
  destruct ys as [|y ys]; [discriminate|].
  cbn [combine map]. apply (corrcoef_fin (x :: xs) (y :: ys)); assumption.
Qed.

(** ** Alignment by date *)

Lemma existsb_eqb_false (d : date) (l : list date) :
  ~ In d l -> existsb (Z.eqb d) l = false.
Proof.
  intros H. destruct (existsb (Z.eqb d) l) eqn:E; [|reflexivity].
  apply existsb_exists in E as (d' & Hin & Heq). apply Z.eqb_eq in Heq. now subst.
Qed.

Lemma has_dup_false (l : list date) : NoDup l -> Pandas.has_dup l = false.
Proof.
  induction 1 as [|d l Hnin Hnd IH]; simpl; [reflexivity|].
  now rewrite existsb_eqb_false, IH.
Qed.

Lemma lookup_in (d : date) (x : float) (s : Series) :
  NoDup (Pandas.index s) -> In (d, x) s -> Pandas.lookup d s = x.
Proof.
  induction s as [|[d' x'] s IH]; simpl; intros Hnd Hin; [contradiction|].
  inversion Hnd as [|? ? Hnin Hnd']; subst.
  destruct Hin as [E|Hin].
  - injection E as -> ->. now rewrite Z.eqb_refl.
  - destruct (Z.eqb_spec d d') as [->|_]; [|now apply IH].
    exfalso. apply Hnin. now apply (in_map fst) in Hin.
Qed.

Lemma lookup_notna_in (d : date) (s : Series) :
  Pandas.lookup d s <> NaN -> In (d, Pandas.lookup d s) s.
Proof.
  induction s as [|[d' x'] s IH]; simpl; intros H; [now apply H|].
  destruct (Z.eqb_spec d d') as [->|_]; [now left|right; now apply IH].
Qed.

Lemma notna_iff (x : float) : Float.notna x = true <-> x <> NaN.
Proof.
  destruct x; unfold Float.notna; simpl; split; intros H; congruence.
Qed.

Lemma filter_none {A} (f : A -> bool) (l : list A) :
  (forall x, In x l -> f x = false) -> filter f l = [].
Proof.
  induction l as [|x l IH]; simpl; intros H; [reflexivity|].
  rewrite (H x (or_introl eq_refl)). apply IH. intros y Hy. apply H. now right.
Qed.

(** With distinct dates on both sides, the joined frame has one row per
    date of the union, holding the value of each side at that date. *)
Lemma concat_axis1_unique (a b : Series) :
  NoDup (Pandas.index a) -> NoDup (Pandas.index b) ->
  Pandas.concat_axis1 a b =
  Ret (map (fun d => (d, (Pandas.lookup d a, Pandas.lookup d b)))
           (Pandas.index a
              ++ filter (fun d => negb (existsb (Z.eqb d) (Pandas.index a)))
                        (Pandas.index b))).
Proof.
  intros Ha Hb. unfold Pandas.concat_axis1.
  destruct (list_eq_dec Z.eq_dec (Pandas.index a) (Pandas.index b)) as [E|_].
  2:{ now rewrite !has_dup_false. }
  f_equal. rewrite <- E.
  assert (Hnil : filter (fun d => negb (existsb (Z.eqb d) (Pandas.index a))) (Pandas.index a)
                 = []).
  { apply filter_none. intros d Hd.
    apply negb_false_iff. apply existsb_exists. exists d. split; [exact Hd|apply Z.eqb_refl]. }
  rewrite Hnil, app_nil_r.
  assert (Hrow : forall s : Series,
             NoDup (Pandas.index s) ->
             s = map (fun d => (d, Pandas.lookup d s)) (Pandas.index s)).
  { clear. intros s Hnd. unfold Pandas.index. rewrite map_map.
    rewrite <- (map_id s) at 1. apply map_ext_in. intros [d x] Hin.
    simpl. f_equal. symmetry. now apply lookup_in. }
  rewrite (Hrow a Ha) at 2. rewrite (Hrow b Hb) at 1. rewrite <- E.
  unfold Pandas.values. rewrite !map_map. cbn [snd].
  generalize (Pandas.index a) as l. clear.
  induction l as [|d l IH]; simpl; [reflexivity|]. now rewrite IH.
Qed.

(** The aligned frame is the inner join by date: its rows are the dates at
    which both series have a value that is not missing. *)
Lemma aligned_inner_join (a b : Series) (joined : Frame2) :
  NoDup (Pandas.index a) -> NoDup (Pandas.index b) ->
  Pandas.concat_axis1 a b = Ret joined ->
  forall d x y,
    In (d, (x, y)) (Pandas.dropna2 joined) <->
    In (d, x) a /\ In (d, y) b /\ x <> NaN /\ y <> NaN.
Proof.
  intros Ha Hb E d x y.
  rewrite (concat_axis1_unique a b Ha Hb) in E. injection E as <-.
  unfold Pandas.dropna2. rewrite filter_In, in_map_iff. cbn [fst snd].
  rewrite andb_true_iff, !notna_iff.
  split.
  - intros ((d' & Erow & _) & Hx & Hy). injection Erow as -> <- <-.
    repeat split; auto using lookup_notna_in.
  - intros (Hina & Hinb & Hx & Hy).
    split; [|split; assumption].
    exists d. split.
    + now rewrite (lookup_in d x a Ha Hina), (lookup_in d y b Hb Hinb).
    + apply in_or_app. left. now apply (in_map fst) in Hina.
Qed.

(** ** Distinct dates are preserved *)

Lemma filter_index_nodup {A} (f : date * A -> bool) (s : list (date * A)) :
  NoDup (Pandas.index s) -> NoDup (Pandas.index (filter f s)).
Proof.
  unfold Pandas.index. induction s as [|row s IH]; simpl; intros H; [constructor|].
  inversion H as [|? ? Hnin Hnd]; subst.
  destruct (f row); simpl; [|now apply IH].
  constructor; [|now apply IH].
  intros Hin. apply Hnin. apply in_map_iff in Hin as (r & E & Hr).
  apply filter_In in Hr as [Hr _]. apply in_map_iff. now exists r.
Qed.




(** ** One ticker *)

Lemma ticker_correlation_empty (stock bench : Series) (w : world) :
  stock = [] \/ bench = [] ->
  ticker_correlation stock bench w = (Ret (Fin 0), w).
Proof.
  intros [-> | ->]; unfold ticker_correlation; simpl; [reflexivity|].
  now rewrite andb_false_r.
Qed.

Lemma ticker_correlation_joined (stock bench : Series) (joined : Frame2) (w : world) :
  stock <> [] -> bench <> [] ->
  Pandas.concat_axis1 stock bench = Ret joined ->
  ticker_correlation stock bench w
  = (Ret (match Pandas.dropna2 joined with
          | [] => Fin 0
          | _ => corr (Pandas.col0 (Pandas.dropna2 joined))
                      (Pandas.col1 (Pandas.dropna2 joined))
          end), w).
Proof.
  intros Hs Hb E. apply empty_false_iff in Hs, Hb.
  unfold ticker_correlation, bind, lift, ret. rewrite Hs, Hb, E. simpl.
  destruct (Pandas.dropna2 joined); reflexivity.
Qed.


Lemma process_ticker_inv (P : Provider) (sd ed : string) (bench : Series) (t : string)
      (w w' : world) (res : TickerResult) (c : float) :
  process_ticker P sd ed bench t w = (Ret (res, c), w') ->
  exists stock w1,
    get_monthly_returns P t sd ed w = (Ret stock, w1) /\
    ticker_correlation stock bench w1 = (Ret c, w') /\
    res = ticker_result t c (calculate_sharpe_ratio stock default_risk_free_rate) stock.
Proof.
  unfold process_ticker, bind, ret.
  destruct (get_monthly_returns P t sd ed w) as [[stock|e] w1]; [|discriminate].
  destruct (ticker_correlation stock bench w1) as [[c0|e] w2] eqn:Ec; [|discriminate].
  intros E. injection E as <- <- <-. exists stock, w1. repeat split. exact Ec.
Qed.


(** A ticker whose fetch fails is processed without a join, whatever the
    provider returns for the others. *)
Lemma process_ticker_failed (P : Provider) (sd ed : string) (bench : Series) (t : string)
      (w : world) :
  fst (get_monthly_returns P t sd ed w) = Ret Pandas.empty_series ->
  exists w',
    process_ticker P sd ed bench t w
    = (Ret ({| ticker := t; correlation := Fin 0; sharpe_ratio := Fin 0; returns := [] |},
            Fin 0), w').
Proof.
  intros E. unfold process_ticker, bind, ret.
  destruct (get_monthly_returns P t sd ed w) as [o w1]. simpl in E. subst o.
  rewrite ticker_correlation_empty by now left.
  eexists. reflexivity.
Qed.

(** ** The loop over the tickers *)



(** ** The response *)

Lemma analysis_success (P : Provider) (sd ed : string) (tickers : list string)
      (w w1 w2 : world) (bench : Series) (used : option string)
      (results : list TickerResult) (correlations : dict) (t0 : string) :
  benchmark_loop P sd ed benchmark_options Pandas.empty_series None w
    = (Ret (bench, used), w1) ->
  bench <> [] ->
  ticker_loop P sd ed bench tickers [] [] w1 = (Ret (results, correlations), w2) ->
  hd_error tickers = Some t0 ->
  get_stock_analysis P sd ed (Some tickers) w
  = (Resp200 {| stockData := results;
                benchmarkReturns := clean (Pandas.tolist bench);
                benchmarkUsed := used;
                highestCorrTicker :=
                  match sorted correlations with
                  | [] => t0
                  | first :: _ => fst (last (sorted correlations) first)
                  end;
                lowestCorrTicker :=
                  match sorted correlations with
                  | [] => t0
                  | first :: _ => fst first
                  end |}, w2).
Proof.
  intros Eb Hne El Ht. apply empty_false_iff in Hne.
  unfold get_stock_analysis, analysis, request_tickers, ret.
  unfold bind at 1. unfold bind at 1. rewrite Eb. cbv beta iota zeta. rewrite Hne.
  unfold bind at 1. rewrite El. cbv beta iota zeta.
  destruct tickers as [|t tickers]; [discriminate|]. simpl in Ht. injection Ht as ->.
  destruct (sorted correlations) as [|first rest]; reflexivity.
Qed.

Lemma analysis_200_inv (P : Provider) (sd ed : string) (data : option (list string))
      (w w' : world) (body : AnalysisResult) :
  get_stock_analysis P sd ed data w = (Resp200 body, w') ->
  exists tickers bench used w1 correlations,
    data = Some tickers /\
    benchmark_loop P sd ed benchmark_options Pandas.empty_series None w
      = (Ret (bench, used), w1) /\
    bench <> [] /\
    ticker_loop P sd ed bench tickers [] [] w1 = (Ret (stockData body, correlations), w') /\
    benchmarkReturns body = clean (Pandas.tolist bench) /\
    benchmarkUsed body = used.
Proof.
  unfold get_stock_analysis, analysis, request_tickers, ret.
  destruct data as [tickers|]; [|unfold bind, raise; discriminate].
  unfold bind at 1. unfold bind at 1.
  destruct (benchmark_loop P sd ed benchmark_options Pandas.empty_series None w)
    as [[[bench used]|e] w1] eqn:Eb; [|discriminate].
  cbv beta iota zeta.
  destruct (Pandas.empty bench) eqn:Hne; [discriminate|]. apply empty_false_iff in Hne.
  unfold bind at 1.
  destruct (ticker_loop P sd ed bench tickers [] [] w1) as [[[results cs]|e] w2] eqn:El;
    [|discriminate].
  cbv beta iota zeta. unfold bind.
  assert (Hfinal :
            forall lo hi,
              (Resp200 {| stockData := results;
                          benchmarkReturns := clean (Pandas.tolist bench);
                          benchmarkUsed := used;
                          highestCorrTicker := hi;
                          lowestCorrTicker := lo |}, w2) = (Resp200 body, w') ->
              exists tickers0 bench0 used0 w0 correlations,
                Some tickers = Some tickers0 /\
                (Ret (bench, used), w1) = (Ret (bench0, used0), w0) /\
                bench0 <> [] /\
                ticker_loop P sd ed bench0 tickers0 [] [] w0
                  = (Ret (stockData body, correlations), w') /\
                benchmarkReturns body = clean (Pandas.tolist bench0) /\
                benchmarkUsed body = used0).
  { intros lo hi E. injection E as <- <-.
    exists tickers, bench, used, w1, cs. repeat split; auto. }
  destruct (sorted cs) as [|first rest].
  - destruct tickers as [|t tickers]; simpl; [discriminate|]. apply Hfinal.
  - simpl. apply Hfinal.
Qed.






Lemma col_lengths (f : Frame2) :
  length (Pandas.values (Pandas.col0 f)) = length (Pandas.values (Pandas.col1 f)).
Proof. unfold Pandas.values, Pandas.col0, Pandas.col1. now rewrite !length_map. Qed.

(** C2. The correlation of a TickerResult is the raw correlation with NaN
    replaced by 0.0, so it is never NaN.  It is 0.0 when the return series of
    the ticker or of the benchmark is empty.  Otherwise the two series are
    joined and the rows with a missing cell dropped, which (the dates of each
    series being distinct) leaves the dates where both have a value: the
    correlation is 0.0 when no row is left, and otherwise the correlation of
    the two columns, which is their Pearson coefficient whenever that is
    defined (numbers, at least two rows, neither column constant). *)
Theorem surfaced_correlation (P : Provider) (sd ed : string) (bench : Series) (t : string)
        (w w' : world) (res : TickerResult) (c : float) :
  process_ticker P sd ed bench t w = (Ret (res, c), w') ->
  exists stock w1,
    get_monthly_returns P t sd ed w = (Ret stock, w1) /\
    correlation res = Float.nan_to_zero c /\
    Float.isnan (correlation res) = false /\
    (stock = [] \/ bench = [] -> correlation res = Fin 0) /\
    (stock <> [] -> bench <> [] ->
     exists joined,
       Pandas.concat_axis1 stock bench = Ret joined /\
       (NoDup (Pandas.index stock) -> NoDup (Pandas.index bench) ->
        forall d x y,
          In (d, (x, y)) (Pandas.dropna2 joined) <->
          In (d, x) stock /\ In (d, y) bench /\ x <> NaN /\ y <> NaN) /\
       (Pandas.dropna2 joined = [] -> correlation res = Fin 0) /\
       (Pandas.dropna2 joined <> [] ->
        c = corr (Pandas.col0 (Pandas.dropna2 joined)) (Pandas.col1 (Pandas.dropna2 joined)) /\
        (c = NaN -> correlation res = Fin 0) /\
        (forall xs ys,
            Pandas.values (Pandas.col0 (Pandas.dropna2 joined)) = map Fin xs ->
            Pandas.values (Pandas.col1 (Pandas.dropna2 joined)) = map Fin ys ->
            (2 <= length xs)%nat ->
            0 < Stat.sqdev xs -> 0 < Stat.sqdev ys ->
            correlation res = Fin (Stat.pearson xs ys)))).
Proof.
  intros Ep.
  destruct (process_ticker_inv _ _ _ _ _ _ _ _ _ Ep) as (stock & w1 & Eg & Ec & Eres).
  exists stock, w1. split; [exact Eg|].
  assert (Hcorr : correlation res = Float.nan_to_zero c) by now rewrite Eres.
  split; [exact Hcorr|].
  split; [rewrite Hcorr; now destruct c|].
  split.
  - intros H. rewrite (ticker_correlation_empty stock bench w1 H) in Ec.
    injection Ec as <- _. now rewrite Hcorr.
  - intros Hs Hb.
    destruct (Pandas.concat_axis1 stock bench) as [joined|e] eqn:Ej.
    2:{ exfalso. apply empty_false_iff in Hs, Hb.
        unfold ticker_correlation, bind, lift in Ec. rewrite Hs, Hb, Ej in Ec.
        simpl in Ec. discriminate. }
    exists joined. split; [reflexivity|].
    rewrite (ticker_correlation_joined stock bench joined w1 Hs Hb Ej) in Ec.
    injection Ec as Ec _.
    split; [|split].
    + intros Hns Hnb. now apply aligned_inner_join.
    + intros Hnil. rewrite Hnil in Ec. now rewrite Hcorr, <- Ec.
    + intros Hrows.
      assert (Hc : c = corr (Pandas.col0 (Pandas.dropna2 joined))
                            (Pandas.col1 (Pandas.dropna2 joined))).
      { destruct (Pandas.dropna2 joined); [congruence|now symmetry]. }
      split; [exact Hc|]. split.
      * intros ->. now rewrite Hcorr.
      * intros xs ys Ex Ey Hlen Ha Hb'.
        assert (E : length xs = length ys).
        { pose proof (col_lengths (Pandas.dropna2 joined)) as H.
          now rewrite Ex, Ey, !length_map in H. }
        rewrite Hcorr, Hc, (corr_fin _ _ xs ys Ex Ey Hlen E Ha Hb'). reflexivity.
Qed.

(** ** The sample market *)

Lemma rising_returns_eq : adj_close_returns Sample.rising = Sample.rising_returns.
Proof.
  unfold adj_close_returns, Sample.rising. simpl.
  decide_reals; try (exfalso; lra). reflexivity.
Qed.

Lemma slowing_returns_eq : adj_close_returns Sample.slowing = Sample.slowing_returns.
Proof.
  unfold adj_close_returns, Sample.slowing. simpl.
  decide_reals; try (exfalso; lra). reflexivity.
Qed.

Lemma recent_returns_eq : adj_close_returns Sample.recent = Sample.recent_returns.
Proof.
  unfold adj_close_returns, Sample.recent. simpl.
  decide_reals; try (exfalso; lra). reflexivity.
Qed.


Lemma market_fetch (symbol : string) (prices : Series) (w : world) :
  Sample.history_of symbol = Ret (Frame prices) ->
  prices <> [] ->
  get_monthly_returns Sample.market symbol Sample.start_date Sample.end_date w
  = (Ret (adj_close_returns prices),
     w ++ [Probe symbol; Monthly symbol Sample.start_date Sample.end_date]).
Proof.
  intros E Hne. apply empty_false_iff in Hne.
  rewrite get_monthly_returns_unfold. simpl. rewrite E. simpl. rewrite Hne.
  now rewrite <- app_assoc.
Qed.

Lemma market_fetch_empty (symbol : string) (w : world) :
  Sample.history_of symbol = Ret (Frame []) ->
  get_monthly_returns Sample.market symbol Sample.start_date Sample.end_date w
  = (Ret [], w ++ [Probe symbol]).
Proof. intros E. rewrite get_monthly_returns_unfold. simpl. now rewrite E. Qed.

Lemma market_benchmark (w : world) :
  benchmark_loop Sample.market Sample.start_date Sample.end_date
                 benchmark_options Pandas.empty_series None w
  = (Ret (Sample.rising_returns, Some "^IXIC"%string),
     w ++ [Probe "^IXIC"; Monthly "^IXIC" Sample.start_date Sample.end_date]).
Proof.
  simpl. unfold bind.
  rewrite (market_fetch "^IXIC" Sample.rising) by (reflexivity || discriminate).
  rewrite rising_returns_eq. reflexivity.
Qed.

Lemma rising_returns_nonempty : Sample.rising_returns <> [].
Proof. discriminate. Qed.

(** The correlation of a single pair of values is undefined. *)
Lemma corrcoef_single (a b : R) : Numpy.corrcoef [Fin a] [Fin b] = NaN.
Proof.
  unfold Numpy.corrcoef, Numpy.cov, Numpy.center, Numpy.average, Numpy.dot,
    Float.sum, Float.of_nat.
  simpl. decide_reals; try (exfalso; lra). simpl.
  unfold Float.signed_inf. decide_reals; try (exfalso; lra). simpl.
  unfold Float.signed_inf. decide_reals; try (exfalso; lra). reflexivity.
Qed.

Lemma sample_sqdev_rising : Stat.sqdev [2 / 1 - 1; 6 / 2 - 1] = 1 / 2.
Proof. unfold Stat.sqdev, Stat.rmean. simpl. lra. Qed.

Lemma sample_sqdev_slowing : Stat.sqdev [3 / 1 - 1; 6 / 3 - 1] = 1 / 2.
Proof. unfold Stat.sqdev, Stat.rmean. simpl. lra. Qed.

Lemma sample_codev : Stat.codev [3 / 1 - 1; 6 / 3 - 1] [2 / 1 - 1; 6 / 2 - 1] = - (1 / 2).
Proof. unfold Stat.codev, Stat.rmean. simpl. lra. Qed.

Lemma sqrt_half_sq : sqrt (1 / 2) * sqrt (1 / 2) = 1 / 2.
Proof. apply sqrt_sqrt. lra. Qed.

Lemma sample_pearson_up :
  Stat.pearson [2 / 1 - 1; 6 / 2 - 1] [2 / 1 - 1; 6 / 2 - 1] = 1.
Proof.
  unfold Stat.pearson. rewrite codev_self, sample_sqdev_rising, sqrt_half_sq. lra.
Qed.

Lemma sample_pearson_down :
  Stat.pearson [3 / 1 - 1; 6 / 3 - 1] [2 / 1 - 1; 6 / 2 - 1] = -1.
Proof.
  unfold Stat.pearson.
  rewrite sample_codev, sample_sqdev_rising, sample_sqdev_slowing, sqrt_half_sq. lra.
Qed.

Lemma sample_nodup :
  NoDup (Pandas.index Sample.rising_returns) /\
  NoDup (Pandas.index Sample.slowing_returns) /\
  NoDup (Pandas.index Sample.recent_returns).
Proof. repeat split; repeat constructor; simpl; intuition lia. Qed.

Lemma market_correlation_up (w : world) :
  ticker_correlation Sample.rising_returns Sample.rising_returns w = (Ret (Fin 1), w).
Proof.
  destruct sample_nodup as (Hr & _ & _).
  rewrite (ticker_correlation_joined _ _ _ w rising_returns_nonempty rising_returns_nonempty
             (concat_axis1_unique _ _ Hr Hr)).
  simpl. f_equal. f_equal.
  rewrite (corr_fin _ _ [2 / 1 - 1; 6 / 2 - 1] [2 / 1 - 1; 6 / 2 - 1]);
    try reflexivity; try (simpl; lia); try (rewrite sample_sqdev_rising; lra).
  now rewrite sample_pearson_up.
Qed.

Lemma market_correlation_down (w : world) :
  ticker_correlation Sample.slowing_returns Sample.rising_returns w = (Ret (Fin (-1)), w).
Proof.
  destruct sample_nodup as (Hr & Hs & _).
  assert (Hne : Sample.slowing_returns <> []) by discriminate.
  rewrite (ticker_correlation_joined _ _ _ w Hne rising_returns_nonempty
             (concat_axis1_unique _ _ Hs Hr)).
  simpl. f_equal. f_equal.
  rewrite (corr_fin _ _ [3 / 1 - 1; 6 / 3 - 1] [2 / 1 - 1; 6 / 2 - 1]);
    try reflexivity; try (simpl; lia);
    try (rewrite sample_sqdev_rising; lra); try (rewrite sample_sqdev_slowing; lra).
  now rewrite sample_pearson_down.
Qed.

Lemma market_correlation_new (w : world) :
  ticker_correlation Sample.recent_returns Sample.rising_returns w = (Ret NaN, w).
Proof.
  destruct sample_nodup as (Hr & _ & Hn).
  assert (Hne : Sample.recent_returns <> []) by discriminate.
  rewrite (ticker_correlation_joined _ _ _ w Hne rising_returns_nonempty
             (concat_axis1_unique _ _ Hn Hr)).
  simpl. f_equal. f_equal. unfold corr. simpl. apply corrcoef_single.
Qed.

Lemma market_process (symbol : string) (prices : Series) (c : float) (w : world) :
  Sample.history_of symbol = Ret (Frame prices) ->
  prices <> [] ->
  (forall w', ticker_correlation (adj_close_returns prices) Sample.rising_returns w'
              = (Ret c, w')) ->
  process_ticker Sample.market Sample.start_date Sample.end_date
                 Sample.rising_returns symbol w
  = (Ret (ticker_result symbol c
            (calculate_sharpe_ratio (adj_close_returns prices) default_risk_free_rate)
            (adj_close_returns prices), c),
     w ++ [Probe symbol; Monthly symbol Sample.start_date Sample.end_date]).
Proof.
  intros E Hne Hc. unfold process_ticker, bind, ret.
  rewrite (market_fetch symbol prices w E Hne), Hc. reflexivity.
Qed.

Lemma market_watchlist_loop (w : world) :
  exists results w',
    ticker_loop Sample.market Sample.start_date Sample.end_date
                Sample.rising_returns Sample.watchlist [] [] w
    = (Ret (results, [("UP"%string, Fin 1); ("NEW"%string, NaN); ("DOWN"%string, Fin (-1))]),
       w') /\
    map (fun r => (ticker r, correlation r)) results
    = [("UP"%string, Fin 1); ("NEW"%string, Fin 0); ("DOWN"%string, Fin (-1))].
Proof.
  unfold Sample.watchlist. cbn [ticker_loop]. unfold bind.
  rewrite (market_process "UP" Sample.rising (Fin 1))
    by (reflexivity || discriminate || (intros; rewrite rising_returns_eq;
                                        apply market_correlation_up)).
  cbv beta iota zeta.
  rewrite (market_process "NEW" Sample.recent NaN)
    by (reflexivity || discriminate || (intros; rewrite recent_returns_eq;
                                        apply market_correlation_new)).
  cbv beta iota zeta.
  rewrite (market_process "DOWN" Sample.slowing (Fin (-1)))
    by (reflexivity || discriminate || (intros; rewrite slowing_returns_eq;
                                        apply market_correlation_down)).
  cbv beta iota zeta. unfold ret.
  eexists. eexists. split; reflexivity.
Qed.

(** ** Sorting the correlations *)

Lemma ltb_asym (x y : float) : Float.ltb x y = true -> Float.ltb y x = false.
Proof.
  destruct x as [| | |a], y as [| | |b]; simpl; try congruence.
  destruct (Rlt_dec a b), (Rlt_dec b a); try congruence. exfalso; lra.
Qed.

Lemma key_le_trans (x y z : string * float) :
  key_defined y -> key_le x y -> key_le y z -> key_le x z.
Proof.
  unfold key_defined, key_le.
  destruct (snd x) as [| | |a], (snd y) as [| | |b], (snd z) as [| | |c];
    simpl; try congruence.
  destruct (Rlt_dec b a), (Rlt_dec c b), (Rlt_dec c a); try congruence. exfalso; lra.
Qed.

Lemma insert_sorted_perm (x : string * float) (racc : list (string * float)) :
  Permutation (insert_sorted x racc) (x :: racc).
Proof.
  induction racc as [|y rest IH]; simpl; [reflexivity|].
  destruct (Float.ltb (snd x) (snd y)); [|reflexivity].
  rewrite IH. apply perm_swap.
Qed.

(** [sorted] only rearranges the items. *)
Lemma sorted_perm (items : list (string * float)) : Permutation (sorted items) items.
Proof.
  unfold sorted. rewrite <- Permutation_rev.
  assert (H : forall racc, Permutation (fold_left (fun racc x => insert_sorted x racc) items racc)
                                       (items ++ racc)).
  { induction items as [|x items IH]; intros racc; simpl; [reflexivity|].
    rewrite IH, insert_sorted_perm. symmetry. apply Permutation_middle. }
  rewrite H. now rewrite app_nil_r.
Qed.

(** The reversed prefix stays in descending order when the keys are
    defined. *)
Lemma insert_sorted_descending (x : string * float) (racc : list (string * float)) :
  key_defined x -> Forall key_defined racc ->
  StronglySorted (fun a b => key_le b a) racc ->
  StronglySorted (fun a b => key_le b a) (insert_sorted x racc).
Proof.
  intros Hx Hdef Hs. induction Hs as [|y rest Hrest IH Hy]; simpl.
  { repeat constructor. }
  inversion Hdef as [|? ? Hdy Hdrest]; subst.
  destruct (Float.ltb (snd x) (snd y)) eqn:E.
  - constructor; [now apply IH|].
    apply Forall_forall. intros z Hz.
    apply (Permutation_in _ (insert_sorted_perm x rest)) in Hz as [<- | Hz].
    + unfold key_le. now apply ltb_asym.
    + exact (proj1 (Forall_forall _ _) Hy z Hz).
  - constructor; [now constructor|].
    constructor; [exact E|].
    apply Forall_forall. intros z Hz.
    apply (key_le_trans z y x Hdy); [exact (proj1 (Forall_forall _ _) Hy z Hz)|exact E].
Qed.

Lemma strongly_sorted_snoc {A} (R : A -> A -> Prop) (l : list A) (a : A) :
  StronglySorted R l -> Forall (fun b => R b a) l -> StronglySorted R (l ++ [a]).
Proof.
  induction 1 as [|b l Hl IH Hb]; intros Ha; simpl.
  { repeat constructor. }
  inversion Ha as [|? ? Hba Hla]; subst.
  constructor; [now apply IH|].
  apply Forall_app. split; [exact Hb|now constructor].
Qed.

Lemma strongly_sorted_rev {A} (R : A -> A -> Prop) (l : list A) :
  StronglySorted (fun a b => R b a) l -> StronglySorted R (rev l).
Proof.
  induction 1 as [|a l Hl IH Ha]; simpl; [constructor|].
  apply strongly_sorted_snoc; [exact IH|].
  apply Forall_forall. intros b Hb. apply in_rev in Hb.
  exact (proj1 (Forall_forall _ _) Ha b Hb).
Qed.

(** When no key is NaN, [sorted] puts the items in ascending order of the
    keys: every item is followed only by items whose key is not less. *)
Lemma sorted_ascending (items : list (string * float)) :
  Forall key_defined items -> StronglySorted key_le (sorted items).
Proof.
  intros Hdef. unfold sorted. apply strongly_sorted_rev.
  assert (H : forall racc,
             Forall key_defined racc ->
             StronglySorted (fun a b => key_le b a) racc ->
             StronglySorted (fun a b => key_le b a)
                            (fold_left (fun racc x => insert_sorted x racc) items racc)).
  { induction Hdef as [|x items Hx Hitems IH]; intros racc Hr Hs; simpl; [exact Hs|].
    apply IH.
    - apply (Permutation_Forall (Permutation_sym (insert_sorted_perm x racc))).
      now constructor.
    - now apply insert_sorted_descending. }
  apply H; constructor.
Qed.

(** ** Ranking by correlation *)

Lemma market_watchlist_response :
  exists body w',
    get_stock_analysis Sample.market Sample.start_date Sample.end_date
                       (Some Sample.watchlist) []
    = (Resp200 body, w') /\
    map (fun r => (ticker r, correlation r)) (stockData body)
    = [("UP"%string, Fin 1); ("NEW"%string, Fin 0); ("DOWN"%string, Fin (-1))] /\
    lowestCorrTicker body = "UP"%string /\
    highestCorrTicker body = "DOWN"%string.
Proof.
  destruct (market_watchlist_loop
              ([] ++ [Probe "^IXIC"; Monthly "^IXIC" Sample.start_date Sample.end_date]))
    as (results & w' & El & Em).
  pose proof (analysis_success Sample.market _ _ Sample.watchlist [] _ w'
                Sample.rising_returns (Some "^IXIC"%string) results _ "UP"%string
                (market_benchmark []) rising_returns_nonempty El eq_refl) as H.
  eexists. exists w'. split; [exact H|].
  simpl. split; [exact Em|]. split; reflexivity.
Qed.

(** C8, at the failing input.  The map of correlations keeps the raw value,
    which is NaN for a ticker with a single aligned return.  On the request
    [UP, NEW, DOWN], whose correlations with the index are 1, undefined and
    -1, no comparison made by the sort is true and the items stay in request
    order: the response names UP, of correlation 1.0, as the lowest ticker
    and DOWN, of correlation -1.0, as the highest. *)
Theorem ranking_with_undefined_correlation :
  sorted [("UP"%string, Fin 1); ("NEW"%string, NaN); ("DOWN"%string, Fin (-1))]
  = [("UP"%string, Fin 1); ("NEW"%string, NaN); ("DOWN"%string, Fin (-1))] /\
  exists body w',
    get_stock_analysis Sample.market Sample.start_date Sample.end_date
                       (Some Sample.watchlist) []
    = (Resp200 body, w') /\
    map (fun r => (ticker r, correlation r)) (stockData body)
    = [("UP"%string, Fin 1); ("NEW"%string, Fin 0); ("DOWN"%string, Fin (-1))] /\
    lowestCorrTicker body = "UP"%string /\
    highestCorrTicker body = "DOWN"%string.
Proof. split; [reflexivity|exact market_watchlist_response]. Qed.

(** ** Instances on the sample market *)

Lemma empty_ticker_list_response_witness :
  get_stock_analysis Sample.market Sample.start_date Sample.end_date (Some []) []
    = (Resp500 "Error in analysis: list index out of range",
       [Probe "^IXIC"; Monthly "^IXIC" Sample.start_date Sample.end_date]).
Proof.
  apply (empty_ticker_list_response Sample.market _ _ [] _
           Sample.rising_returns (Some "^IXIC"%string)).
  - apply market_benchmark.
  - exact rising_returns_nonempty.
Defined.

Lemma market_gone_fails (symbol : string) :
  Sample.history_of symbol = Ret (Frame []) ->
  fetch_fails Sample.market Sample.start_date Sample.end_date symbol.
Proof. intros E w. now rewrite market_fetch_empty. Qed.

Lemma surfaced_correlation_witness :
  correlation
    (ticker_result "UP" (Fin 1)
       (calculate_sharpe_ratio (adj_close_returns Sample.rising) default_risk_free_rate)
       (adj_close_returns Sample.rising))
  = Float.nan_to_zero (Fin 1).
Proof.
  destruct (surfaced_correlation
              Sample.market Sample.start_date Sample.end_date Sample.rising_returns
              "UP" [] _ _ _
              (market_process "UP" Sample.rising (Fin 1) [] eq_refl
                 ltac:(discriminate)
                 ltac:(intros; rewrite rising_returns_eq; apply market_correlation_up)))
    as (stock & w1 & _ & H & _).
  exact H.
Defined.



(** * Further properties of the handler *)

(** ** What a fetch asks and returns *)

(** X1. A fetch sends the probe, then the monthly request only when the probe
    returned a frame that is not empty; it sends nothing else, and both
    requests are about its own symbol and the window it was given. *)
Theorem fetch_requests (P : Provider) (t sd ed : string) (w : world) :
  snd (get_monthly_returns P t sd ed w)
  = w ++ Probe t :: (if probe_has_data P w t then [Monthly t sd ed] else []).
Proof.
  rewrite get_monthly_returns_unfold. unfold probe_has_data.
  destruct (history_1d P w t) as [daily|e]; [|reflexivity].
  destruct (Pandas.df_empty daily); [reflexivity|].
  cbv zeta. rewrite <- app_assoc.
  destruct (history_1mo P (w ++ [Probe t]) t sd ed) as [[s|i]|e]; simpl;
    try reflexivity.
  destruct (Pandas.empty s); reflexivity.
Qed.

Lemma dropna_notna (s : Series) : Forall (fun row => snd row <> NaN) (Pandas.dropna s).
Proof.
  apply Forall_forall. intros row H. apply filter_In in H as [_ H].
  now apply notna_iff.
Qed.

Lemma clean_id (l : list float) :
  Forall (fun x => x <> NaN) l -> clean l = l.
Proof.
  unfold clean. induction 1 as [|x l Hx _ IH]; simpl; [reflexivity|].
  rewrite IH. f_equal. destruct x; try reflexivity. congruence.
Qed.

Lemma get_monthly_returns_notna (P : Provider) (t sd ed : string) (w w' : world)
      (s : Series) :
  get_monthly_returns P t sd ed w = (Ret s, w') ->
  Forall (fun row => snd row <> NaN) s.
Proof.
  rewrite get_monthly_returns_unfold.
  destruct (history_1d P w t) as [daily|e].
  2:{ intros E. injection E as <- _. constructor. }
  destruct (Pandas.df_empty daily).
  { intros E. injection E as <- _. constructor. }
  cbv zeta.
  destruct (history_1mo P (w ++ [Probe t]) t sd ed) as [[s0|i]|e].
  - destruct (Pandas.empty s0); intros E; injection E as <- _; [constructor|].
    apply dropna_notna.
  - intros E. injection E as <- _. constructor.
  - intros E. injection E as <- _. constructor.
Qed.

Lemma values_notna (s : Series) :
  Forall (fun row => snd row <> NaN) s -> Forall (fun x => x <> NaN) (Pandas.values s).
Proof.
  unfold Pandas.values. induction 1; simpl; constructor; assumption.
Qed.

(** X2. A fetched series holds no NaN, so the clean-up of the lists of
    returns changes nothing: the returns of a TickerResult are the values of
    the series fetched for the ticker, as they are. *)
Theorem fetched_returns_unchanged (P : Provider) (sd ed : string) (bench : Series)
        (t : string) (w w' : world) (res : TickerResult) (c : float) :
  process_ticker P sd ed bench t w = (Ret (res, c), w') ->
  exists stock w1,
    get_monthly_returns P t sd ed w = (Ret stock, w1) /\
    Forall (fun row => snd row <> NaN) stock /\
    returns res = Pandas.values stock.
Proof.
  intros Ep.
  destruct (process_ticker_inv _ _ _ _ _ _ _ _ _ Ep) as (stock & w1 & Eg & _ & Eres).
  pose proof (get_monthly_returns_notna _ _ _ _ _ _ _ Eg) as Hn.
  exists stock, w1. split; [exact Eg|]. split; [exact Hn|].
  rewrite Eres. simpl. unfold Pandas.tolist. apply clean_id. now apply values_notna.
Qed.

Lemma market_process_up (w : world) :
  process_ticker Sample.market Sample.start_date Sample.end_date
                 Sample.rising_returns "UP" w
  = (Ret (ticker_result "UP" (Fin 1)
            (calculate_sharpe_ratio (adj_close_returns Sample.rising) default_risk_free_rate)
            (adj_close_returns Sample.rising), Fin 1),
     w ++ [Probe "UP"; Monthly "UP" Sample.start_date Sample.end_date]).
Proof.
  apply market_process; [reflexivity|discriminate|].
  intros w'. rewrite rising_returns_eq. apply market_correlation_up.
Qed.

Lemma fetched_returns_unchanged_witness :
  exists stock w1,
    get_monthly_returns Sample.market "UP" Sample.start_date Sample.end_date []
    = (Ret stock, w1) /\
    Forall (fun row => snd row <> NaN) stock /\
    returns (ticker_result "UP" (Fin 1)
               (calculate_sharpe_ratio (adj_close_returns Sample.rising)
                                       default_risk_free_rate)
               (adj_close_returns Sample.rising))
    = Pandas.values stock.
Proof.
  exact (fetched_returns_unchanged Sample.market _ _ _ "UP" [] _ _ _
           (market_process_up [])).
Defined.

(** ** The benchmark of a response *)

Lemma empty_true_nil {A} (s : list A) : Pandas.empty s = true -> s = [].
Proof. destruct s; simpl; congruence. Qed.

Lemma benchmark_loop_source (P : Provider) (sd ed : string) (options : list string) :
  forall used w b u w',
    benchmark_loop P sd ed options Pandas.empty_series used w = (Ret (b, u), w') ->
    b <> [] ->
    exists o w0 w1,
      In o options /\ u = Some o /\
      get_monthly_returns P o sd ed w0 = (Ret b, w1).
Proof.
  induction options as [|o options IH]; intros used w b u w'; simpl.
  - unfold ret. intros E Hne. injection E as <- _ _. now contradiction Hne.
  - unfold bind.
    destruct (get_monthly_returns P o sd ed w) as [[s|e] w1] eqn:Eg; [|discriminate].
    destruct (Pandas.empty s) eqn:Es; simpl.
    + apply empty_true_nil in Es. subst s. intros E Hne.
      destruct (IH used w1 b u w' E Hne) as (o' & w0 & w2 & Hin & Hu & Ho).
      exists o', w0, w2. auto.
    + unfold ret. intros E _. injection E as <- <- _.
      exists o, w, w1. auto.
Qed.

(** X3. In every 200 response the benchmark named is ^IXIC or ^GSPC, the
    benchmark returns are not empty, and they are the values of the series
    fetched for the named symbol, unchanged. *)
Theorem response_benchmark (P : Provider) (sd ed : string) (data : option (list string))
        (w w' : world) (body : AnalysisResult) :
  get_stock_analysis P sd ed data w = (Resp200 body, w') ->
  benchmarkReturns body <> [] /\
  exists symbol series w0 w1,
    benchmarkUsed body = Some symbol /\
    (symbol = "^IXIC"%string \/ symbol = "^GSPC"%string) /\
    get_monthly_returns P symbol sd ed w0 = (Ret series, w1) /\
    benchmarkReturns body = Pandas.values series.
Proof.
  intros E.
  destruct (analysis_200_inv P sd ed data w w' body E)
    as (tickers & bench & used & w1 & cs & _ & Eb & Hne & _ & Er & Eu).
  destruct (benchmark_loop_source P sd ed benchmark_options None w bench used w1 Eb Hne)
    as (o & w0 & w2 & Hin & Hu & Ho).
  assert (Hv : benchmarkReturns body = Pandas.values bench).
  { rewrite Er. unfold Pandas.tolist. apply clean_id. apply values_notna.
    exact (get_monthly_returns_notna _ _ _ _ _ _ _ Ho). }
  split.
  - rewrite Hv. destruct bench; [congruence|discriminate].
  - exists o, bench, w0, w2. rewrite Eu. split; [exact Hu|].
    split; [|split; [exact Ho|exact Hv]].
    simpl in Hin. destruct Hin as [<-|[<-|[]]]; auto.
Qed.

Lemma response_benchmark_witness :
  exists body w',
    get_stock_analysis Sample.market Sample.start_date Sample.end_date
                       (Some Sample.watchlist) []
    = (Resp200 body, w') /\
    benchmarkReturns body <> [].
Proof.
  destruct market_watchlist_response as (body & w' & E & _).
  exists body, w'. split; [exact E|].
  exact (proj1 (response_benchmark _ _ _ _ _ _ _ E)).
Defined.

(** ** The requests of a whole analysis *)

Lemma ticker_correlation_world (stock bench : Series) (w w' : world) (o : outcome float) :
  ticker_correlation stock bench w = (o, w') -> w' = w.
Proof.
  unfold ticker_correlation, bind, lift, ret.
  destruct (negb (Pandas.empty stock) && negb (Pandas.empty bench)).
  - destruct (Pandas.concat_axis1 stock bench) as [joined|e].
    + destruct (negb (Pandas.empty (Pandas.dropna2 joined))); congruence.
    + congruence.
  - congruence.
Qed.






(** ** The Sharpe ratio of a ticker *)

(** X5. The Sharpe ratio and the returns of a TickerResult are computed from
    the series of the ticker alone: processing the same ticker against two
    benchmarks gives the same Sharpe ratio, the same returns and the same
    requests; only the correlation can differ. *)
Theorem sharpe_ignores_benchmark (P : Provider) (sd ed : string) (bench1 bench2 : Series)
        (t : string) (w w1 w2 : world) (r1 r2 : TickerResult) (c1 c2 : float) :
  process_ticker P sd ed bench1 t w = (Ret (r1, c1), w1) ->
  process_ticker P sd ed bench2 t w = (Ret (r2, c2), w2) ->
  sharpe_ratio r1 = sharpe_ratio r2 /\ returns r1 = returns r2 /\
  ticker r1 = ticker r2 /\ w1 = w2.
Proof.
  intros E1 E2.
  destruct (process_ticker_inv _ _ _ _ _ _ _ _ _ E1) as (s1 & u1 & Eg1 & Ec1 & ->).
  destruct (process_ticker_inv _ _ _ _ _ _ _ _ _ E2) as (s2 & u2 & Eg2 & Ec2 & ->).
  rewrite Eg1 in Eg2. injection Eg2 as <- <-.
  apply ticker_correlation_world in Ec1, Ec2. subst w1 w2.
  repeat split; reflexivity.
Qed.

Lemma market_process_up_alone (w : world) :
  process_ticker Sample.market Sample.start_date Sample.end_date [] "UP" w
  = (Ret (ticker_result "UP" (Fin 0)
            (calculate_sharpe_ratio (adj_close_returns Sample.rising) default_risk_free_rate)
            (adj_close_returns Sample.rising), Fin 0),
     w ++ [Probe "UP"; Monthly "UP" Sample.start_date Sample.end_date]).
Proof.
  unfold process_ticker, bind, ret.
  rewrite (market_fetch "UP" Sample.rising) by (reflexivity || discriminate).
  rewrite ticker_correlation_empty by now right. reflexivity.
Qed.

Lemma sharpe_ignores_benchmark_witness :
  sharpe_ratio (ticker_result "UP" (Fin 1)
                  (calculate_sharpe_ratio (adj_close_returns Sample.rising)
                                          default_risk_free_rate)
                  (adj_close_returns Sample.rising))
  = sharpe_ratio (ticker_result "UP" (Fin 0)
                    (calculate_sharpe_ratio (adj_close_returns Sample.rising)
                                            default_risk_free_rate)
                    (adj_close_returns Sample.rising)).
Proof.
  exact (proj1 (sharpe_ignores_benchmark Sample.market _ _ _ _ "UP" [] _ _ _ _ _ _
                  (market_process_up []) (market_process_up_alone []))).
Defined.

(** The values that count in [s - c] are those of [s], shifted. *)
Lemma valid_sub_scalar (s : Series) (c : float) :
  Pandas.valid (Pandas.sub_scalar s c)
  = filter Float.notna (map (fun x => Float.sub x c) (Pandas.valid s)).
Proof.
  unfold Pandas.valid, Pandas.sub_scalar, Pandas.values. rewrite map_map. simpl.
  induction s as [|[d x] s IH]; simpl; [reflexivity|].
  destruct x; simpl; rewrite IH; reflexivity.
Qed.

Lemma filter_notna_nil_iff (l : list float) :
  filter Float.notna l = [] <-> forallb Float.isnan l = true.
Proof.
  induction l as [|x l IH]; simpl; [tauto|].
  destruct x; simpl; try (split; congruence). exact IH.
Qed.

Lemma valid_nil_iff (s : Series) :
  Pandas.valid s = [] <-> Pandas.empty s || Pandas.isna_all s = true.
Proof.
  unfold Pandas.valid, Pandas.isna_all. rewrite filter_notna_nil_iff.
  destruct s as [|row s]; [simpl; tauto|]. reflexivity.
Qed.

(** [calculate_sharpe_ratio] in terms of the values that count. *)
Lemma calculate_sharpe_ratio_valid (a b : Series) (rf : float) :
  Pandas.valid a = Pandas.valid b ->
  calculate_sharpe_ratio a rf = calculate_sharpe_ratio b rf.
Proof.
  intros E. unfold calculate_sharpe_ratio.
  assert (Hg : Pandas.empty a || Pandas.isna_all a = Pandas.empty b || Pandas.isna_all b).
  { pose proof (valid_nil_iff a) as Ha. pose proof (valid_nil_iff b) as Hb.
    rewrite E in Ha.
    destruct (Pandas.empty a || Pandas.isna_all a), (Pandas.empty b || Pandas.isna_all b);
      try reflexivity.
    - symmetry. apply Hb. now apply Ha.
    - apply Ha. now apply Hb. }
  rewrite Hg.
  assert (Hv : forall c, Pandas.valid (Pandas.sub_scalar a c)
                         = Pandas.valid (Pandas.sub_scalar b c)).
  { intros c. now rewrite !valid_sub_scalar, E. }
  unfold Pandas.std, Pandas.var, Pandas.mean. now rewrite !Hv.
Qed.

(** X6. The Sharpe ratio looks only at the values that are present: two
    series with the same non-missing values in the same order, whatever
    their dates and their missing rows, have the same Sharpe ratio; in
    particular dropping the missing rows first changes nothing. *)
Theorem sharpe_skips_missing (a b : Series) (rf : float) :
  (Pandas.valid a = Pandas.valid b ->
   calculate_sharpe_ratio a rf = calculate_sharpe_ratio b rf) /\
  calculate_sharpe_ratio (Pandas.dropna a) rf = calculate_sharpe_ratio a rf.
Proof.
  split; [apply calculate_sharpe_ratio_valid|].
  apply calculate_sharpe_ratio_valid.
  unfold Pandas.valid, Pandas.dropna, Pandas.values.
  induction a as [|[d x] a IH]; simpl; [reflexivity|].
  destruct (Float.notna x) eqn:E; simpl; rewrite ?E, IH; reflexivity.
Qed.

Lemma sharpe_skips_missing_witness :
  calculate_sharpe_ratio [(1%Z, Fin 1); (2%Z, NaN); (3%Z, Fin 2)] default_risk_free_rate
  = calculate_sharpe_ratio [(7%Z, Fin 1); (9%Z, Fin 2)] default_risk_free_rate.
Proof.
  apply (proj1 (sharpe_skips_missing _ _ _)). reflexivity.
Defined.

Lemma filter_length_1 (l : list float) (c : float) :
  (length l <= 1)%nat ->
  (length (filter Float.notna (map (fun x => Float.sub x c) l)) <= 1)%nat.
Proof.
  intros H.
  pose proof (filter_length_le Float.notna (map (fun x => Float.sub x c) l)) as H1.
  rewrite length_map in H1. lia.
Qed.

(** X7. With a single non-missing return (two monthly prices), the standard
    deviation is undefined and [calculate_sharpe_ratio] returns NaN, whatever
    the risk-free rate; the TickerResult then carries 0.0. *)
Theorem sharpe_of_single_return (returns : Series) (rf : float) (t : string) (c : float) :
  length (Pandas.valid returns) = 1%nat ->
  calculate_sharpe_ratio returns rf = NaN /\
  sharpe_ratio (ticker_result t c (calculate_sharpe_ratio returns rf) returns) = Fin 0.
Proof.
  intros H.
  assert (E : calculate_sharpe_ratio returns rf = NaN).
  { unfold calculate_sharpe_ratio.
    destruct (Pandas.empty returns || Pandas.isna_all returns) eqn:Eg.
    { apply valid_nil_iff in Eg. rewrite Eg in H. discriminate. }
    assert (Hs : Pandas.std (Pandas.sub_scalar returns (Float.div rf (Fin 12))) = NaN).
    { unfold Pandas.std, Pandas.var. rewrite valid_sub_scalar.
      pose proof (filter_length_1 (Pandas.valid returns) (Float.div rf (Fin 12))) as Hl.
      destruct (_ <=? 1)%nat eqn:El; [reflexivity|].
      apply Nat.leb_gt in El. lia. }
    rewrite Hs. simpl.
    destruct (Pandas.mean _); simpl; try reflexivity;
      destruct (Rlt_dec 12 0); reflexivity. }
  split; [exact E|]. rewrite E. reflexivity.
Qed.

Lemma sharpe_of_single_return_witness :
  calculate_sharpe_ratio Sample.recent_returns default_risk_free_rate = NaN.
Proof.
  apply (proj1 (sharpe_of_single_return Sample.recent_returns default_risk_free_rate
                  "NEW" NaN eq_refl)).
Defined.

(** ** The range of a correlation *)

Lemma clip_range (x : float) :
  Float.clip x (-1) 1 = NaN \/ exists r, Float.clip x (-1) 1 = Fin r /\ -1 <= r <= 1.
Proof.
  destruct x as [| | |r]; simpl; [now left| | |]; right; eexists; (split; [reflexivity|]).
  - lra.
  - lra.
  - unfold Rmin, Rmax.
    destruct (Rle_dec r (-1)); destruct (Rle_dec _ 1); lra.
Qed.

Lemma corr_range (a b : Series) :
  corr a b = NaN \/ exists r, corr a b = Fin r /\ -1 <= r <= 1.
Proof.
  unfold corr. destruct (filter _ _); [now left|]. apply clip_range.
Qed.

(** X8. The correlation of a TickerResult is a number between -1 and 1,
    whatever the provider returned: the coefficient is clipped, and the
    undefined cases are surfaced as 0.0. *)
Theorem surfaced_correlation_range (P : Provider) (sd ed : string) (bench : Series)
        (t : string) (w w' : world) (res : TickerResult) (c : float) :
  process_ticker P sd ed bench t w = (Ret (res, c), w') ->
  exists r, correlation res = Fin r /\ -1 <= r <= 1.
Proof.
  intros Ep.
  destruct (process_ticker_inv _ _ _ _ _ _ _ _ _ Ep) as (stock & w1 & _ & Ec & ->).
  simpl.
  assert (Hc : c = Fin 0 \/ c = NaN \/ exists r, c = Fin r /\ -1 <= r <= 1).
  { unfold ticker_correlation, bind, lift, ret in Ec.
    destruct (negb (Pandas.empty stock) && negb (Pandas.empty bench)).
    - destruct (Pandas.concat_axis1 stock bench) as [joined|e]; [|discriminate].
      destruct (negb (Pandas.empty (Pandas.dropna2 joined))).
      + injection Ec as <- _. right. apply corr_range.
      + injection Ec as <- _. now left.
    - injection Ec as <- _. now left. }
  destruct Hc as [-> | [-> | (r & -> & Hr)]].
  - exists 0. split; [reflexivity|lra].
  - exists 0. split; [reflexivity|lra].
  - exists r. split; [reflexivity|exact Hr].
Qed.

Lemma surfaced_correlation_range_witness :
  exists r,
    correlation (ticker_result "UP" (Fin 1)
                   (calculate_sharpe_ratio (adj_close_returns Sample.rising)
                                           default_risk_free_rate)
                   (adj_close_returns Sample.rising)) = Fin r /\
    -1 <= r <= 1.
Proof.
  exact (surfaced_correlation_range Sample.market _ _ _ "UP" [] _ _ _
           (market_process_up [])).
Defined.

(** ** The map of correlations *)

Lemma dict_set_keys (k : string) (v : float) (d : dict) :
  map fst (dict_set k v d)
  = if existsb (String.eqb k) (map fst d) then map fst d else map fst d ++ [k].
Proof.
  induction d as [|[k' v'] d IH]; simpl; [reflexivity|].
  destruct (String.eqb k k'); simpl; [reflexivity|].
  rewrite IH. destruct (existsb (String.eqb k) (map fst d)); reflexivity.
Qed.

Lemma existsb_eqb_in (k : string) (l : list string) :
  existsb (String.eqb k) l = true <-> In k l.
Proof.
  rewrite existsb_exists. split.
  - intros (x & Hx & E). apply String.eqb_eq in E. now subst.
  - intros H. exists k. split; [exact H|apply String.eqb_refl].
Qed.

Lemma dict_set_in_keys (k k' : string) (v : float) (d : dict) :
  In k' (map fst (dict_set k v d)) <-> k' = k \/ In k' (map fst d).
Proof.
  rewrite dict_set_keys.
  destruct (existsb (String.eqb k) (map fst d)) eqn:E.
  - apply existsb_eqb_in in E. split; [tauto|]. intros [->|H]; assumption.
  - rewrite in_app_iff. simpl. split; [intros [H|[H|[]]]|intros [H|H]]; auto.
Qed.

Lemma dict_set_nodup (k : string) (v : float) (d : dict) :
  NoDup (map fst d) -> NoDup (map fst (dict_set k v d)).
Proof.
  intros H. rewrite dict_set_keys.
  destruct (existsb (String.eqb k) (map fst d)) eqn:E; [exact H|].
  apply NoDup_app; [exact H|repeat constructor; auto|].
  intros x Hx [<-|[]]. apply existsb_eqb_in in Hx. congruence.
Qed.

Lemma ticker_loop_keys (P : Provider) (sd ed : string) (bench : Series) :
  forall tickers results correlations w out cs w',
    ticker_loop P sd ed bench tickers results correlations w = (Ret (out, cs), w') ->
    (NoDup (map fst correlations) -> NoDup (map fst cs)) /\
    (forall k, In k (map fst cs) <-> In k (map fst correlations) \/ In k tickers).
Proof.
  induction tickers as [|t tickers IH]; intros results correlations w out cs w'; simpl.
  - unfold ret. intros E. injection E as _ <- _. split; [auto|]. intros k. tauto.
  - unfold bind.
    destruct (process_ticker P sd ed bench t w) as [[[res c]|e] w1]; [|discriminate].
    cbv beta iota zeta. intros El.
    destruct (IH _ _ _ _ _ _ El) as [Hnd Hin]. split.
    + intros H. apply Hnd. now apply dict_set_nodup.
    + intros k. rewrite Hin, dict_set_in_keys. intuition congruence.
Qed.

Lemma last_in {A} (l : list A) (d : A) : l <> [] -> In (last l d) l.
Proof.
  induction l as [|x l IH]; [congruence|]. intros _.
  destruct l as [|y l]; [now left|].
  right. apply IH. discriminate.
Qed.

(** The ranking part of a 200 response. *)
Lemma analysis_200_ranking (P : Provider) (sd ed : string) (tickers : list string)
      (w w' : world) (body : AnalysisResult) :
  get_stock_analysis P sd ed (Some tickers) w = (Resp200 body, w') ->
  tickers <> [] /\
  exists bench used w1 cs,
    benchmark_loop P sd ed benchmark_options Pandas.empty_series None w
      = (Ret (bench, used), w1) /\
    bench <> [] /\
    ticker_loop P sd ed bench tickers [] [] w1 = (Ret (stockData body, cs), w') /\
    exists first,
      hd_error (sorted cs) = Some first /\
      lowestCorrTicker body = fst first /\
      highestCorrTicker body = fst (last (sorted cs) first).
Proof.
  intros E.
  destruct (analysis_200_inv P sd ed (Some tickers) w w' body E)
    as (tickers' & bench & used & w1 & cs & Et & Eb & Hne & El & _).
  injection Et as <-.
  destruct tickers as [|t0 rest].
  { exfalso. simpl in El. unfold ret in El. injection El as _ <- <-.
    apply empty_false_iff in Hne.
    unfold get_stock_analysis, analysis, request_tickers, ret in E.
    unfold bind at 1 in E. unfold bind at 1 in E. rewrite Eb in E.
    cbv beta iota zeta in E. rewrite Hne in E. discriminate. }
  split; [discriminate|].
  exists bench, used, w1, cs. split; [exact Eb|]. split; [exact Hne|]. split; [exact El|].
  rewrite (analysis_success P sd ed (t0 :: rest) w w1 w' bench used (stockData body) cs t0
             Eb Hne El eq_refl) in E.
  injection E as E.
  destruct (ticker_loop_keys P sd ed bench (t0 :: rest) [] [] w1 _ cs w' El) as [_ Hkeys].
  assert (Hcs : cs <> []).
  { intros ->. apply (proj2 (Hkeys t0)). right. now left. }
  destruct (sorted cs) as [|first srest] eqn:Es.
  { exfalso. apply Hcs. apply Permutation_nil. rewrite <- Es. apply sorted_perm. }
  exists first. rewrite <- E. simpl. auto.
Qed.

(** X9. In every 200 response the ticker list was not empty, and the lowest
    and the highest ticker are taken from it; when a single symbol was
    requested, once or several times, both are that symbol. *)
Theorem ranking_names_requested (P : Provider) (sd ed : string) (tickers : list string)
        (w w' : world) (body : AnalysisResult) :
  get_stock_analysis P sd ed (Some tickers) w = (Resp200 body, w') ->
  tickers <> [] /\
  In (lowestCorrTicker body) tickers /\
  In (highestCorrTicker body) tickers /\
  (forall t, Forall (eq t) tickers ->
             lowestCorrTicker body = t /\ highestCorrTicker body = t).
Proof.
  intros E.
  destruct (analysis_200_ranking P sd ed tickers w w' body E)
    as (Hne & bench & used & w1 & cs & _ & _ & El & first & Ef & -> & ->).
  destruct (ticker_loop_keys P sd ed bench tickers [] [] w1 _ cs w' El) as [_ Hkeys].
  assert (Hin : forall item, In item (sorted cs) -> In (fst item) tickers).
  { intros item Hi. apply (Permutation_in _ (sorted_perm cs)) in Hi.
    apply (in_map fst) in Hi. apply Hkeys in Hi as [[]|Hi]. exact Hi. }
  assert (Hfirst : In first (sorted cs)).
  { destruct (sorted cs); [discriminate|]. injection Ef as ->. now left. }
  assert (Hlast : In (last (sorted cs) first) (sorted cs)).
  { apply last_in. intros Hnil. now rewrite Hnil in Hfirst. }
  split; [exact Hne|]. split; [now apply Hin|]. split; [now apply Hin|].
  intros t Ht. rewrite Forall_forall in Ht.
  split; symmetry; apply Ht; now apply Hin.
Qed.

Lemma ranking_names_requested_witness :
  exists body w',
    get_stock_analysis Sample.market Sample.start_date Sample.end_date
                       (Some Sample.watchlist) []
    = (Resp200 body, w') /\
    In (lowestCorrTicker body) Sample.watchlist /\
    In (highestCorrTicker body) Sample.watchlist.
Proof.
  destruct market_watchlist_response as (body & w' & E & _).
  exists body, w'. split; [exact E|].
  destruct (ranking_names_requested _ _ _ _ _ _ _ E) as (_ & Hlo & Hhi & _).
  split; [exact Hlo|exact Hhi].
Defined.

(** X10. The map of correlations has one item per distinct requested
    ticker: its keys are distinct and are exactly the requested symbols. *)
Theorem correlation_map_keys (P : Provider) (sd ed : string) (bench : Series)
        (tickers : list string) (w w' : world) (results : list TickerResult) (cs : dict) :
  ticker_loop P sd ed bench tickers [] [] w = (Ret (results, cs), w') ->
  NoDup (map fst cs) /\
  (forall k, In k (map fst cs) <-> In k tickers) /\
  (length cs <= length tickers)%nat.
Proof.
  intros El.
  destruct (ticker_loop_keys P sd ed bench tickers [] [] w _ cs w' El) as [Hnd Hkeys].
  assert (Hn : NoDup (map fst cs)) by (apply Hnd; constructor).
  split; [exact Hn|]. split.
  - intros k. rewrite Hkeys. simpl. tauto.
  - rewrite <- (length_map fst cs). apply NoDup_incl_length; [exact Hn|].
    intros k Hk. apply Hkeys in Hk as [[]|Hk]. exact Hk.
Qed.

Lemma correlation_map_keys_witness :
  exists results cs w',
    ticker_loop Sample.market Sample.start_date Sample.end_date
                Sample.rising_returns Sample.watchlist [] [] []
    = (Ret (results, cs), w') /\
    NoDup (map fst cs) /\ (length cs <= 3)%nat.
Proof.
  destruct (market_watchlist_loop []) as (results & w' & El & _).
  eexists results, _, w'. split; [exact El|].
  destruct (correlation_map_keys _ _ _ _ _ _ _ _ _ El) as (Hn & _ & Hl).
  split; [exact Hn|exact Hl].
Defined.

(** ** Ranking when every correlation is defined *)

Lemma ltb_irrefl (x : float) : Float.ltb x x = false.
Proof.
  destruct x as [| | |a]; simpl; try reflexivity.
  destruct (Rlt_dec a a); [exfalso; lra|reflexivity].
Qed.

Lemma strongly_sorted_last {A} (R : A -> A -> Prop) (l : list A) (d : A) :
  StronglySorted R l ->
  forall x, In x l -> x = last l d \/ R x (last l d).
Proof.
  induction 1 as [|a l Hl IH Ha]; intros x Hx; [contradiction|].
  destruct l as [|b l].
  - destruct Hx as [<-|[]]. now left.
  - change (last (a :: b :: l) d) with (last (b :: l) d).
    destruct Hx as [<-|Hx]; [|now apply IH].
    right. apply (proj1 (Forall_forall _ _) Ha). apply last_in. discriminate.
Qed.

(** X11. When no correlation kept in the map is NaN and the ticker list is
    not empty, the response is a 200 whose lowest ticker has a correlation
    that no other is below, and whose highest ticker has one that no other
    is above. *)
Theorem ranking_without_nan (P : Provider) (sd ed : string) (tickers : list string)
        (w w1 w2 : world) (bench : Series) (used : option string)
        (results : list TickerResult) (cs : dict) :
  benchmark_loop P sd ed benchmark_options Pandas.empty_series None w
    = (Ret (bench, used), w1) ->
  bench <> [] ->
  ticker_loop P sd ed bench tickers [] [] w1 = (Ret (results, cs), w2) ->
  tickers <> [] ->
  Forall key_defined cs ->
  exists body lo hi,
    get_stock_analysis P sd ed (Some tickers) w = (Resp200 body, w2) /\
    In (lowestCorrTicker body, lo) cs /\
    In (highestCorrTicker body, hi) cs /\
    forall t c, In (t, c) cs -> Float.ltb c lo = false /\ Float.ltb hi c = false.
Proof.
  intros Eb Hne El Ht Hdef.
  destruct tickers as [|t0 rest]; [congruence|].
  pose proof (analysis_success P sd ed (t0 :: rest) w w1 w2 bench used results cs t0
                Eb Hne El eq_refl) as E.
  destruct (analysis_200_ranking P sd ed (t0 :: rest) w w2 _ E)
    as (_ & bench' & used' & w1' & cs' & Eb' & _ & El' & first & Ef & Elo & Ehi).
  rewrite Eb in Eb'. injection Eb' as <- <- <-.
  rewrite El in El'. injection El' as <-.
  pose proof (sorted_ascending cs Hdef) as Hs.
  pose proof (sorted_perm cs) as Hp.
  destruct (sorted cs) as [|f srest] eqn:Es; [discriminate|].
  simpl in Ef. injection Ef as <-.
  eexists. exists (snd f), (snd (last (f :: srest) f)).
  split; [exact E|].
  split; [|split].
  - rewrite Elo. rewrite <- surjective_pairing.
    apply (Permutation_in _ Hp). now left.
  - rewrite Ehi. rewrite <- surjective_pairing.
    apply (Permutation_in _ Hp). apply last_in. discriminate.
  - intros t c Hin. apply (Permutation_in _ (Permutation_sym Hp)) in Hin.
    split.
    + inversion Hs as [|? ? _ Hf]; subst.
      destruct Hin as [Ef|Hin]; [rewrite Ef; apply ltb_irrefl|].
      exact (proj1 (Forall_forall _ _) Hf _ Hin).
    + destruct (strongly_sorted_last key_le (f :: srest) f Hs _ Hin) as [Ef|Hle].
      * rewrite <- Ef. apply ltb_irrefl.
      * exact Hle.
Qed.

(** ** Ties and lists that are already in order *)

Lemma non_descending_adjacent (l l' : list (string * float)) (x y : string * float) :
  non_descending (l ++ x :: y :: l') = true -> Float.ltb (snd y) (snd x) = false.
Proof.
  induction l as [|a l IH]; simpl.
  - intros H. apply andb_true_iff in H as [H _]. now apply negb_true_iff in H.
  - destruct (l ++ x :: y :: l') eqn:E.
    + destruct l; discriminate.
    + intros H. apply andb_true_iff in H as [_ H]. now apply IH.
Qed.

Lemma sorted_of_run (items : list (string * float)) :
  non_descending items = true -> sorted items = items.
Proof.
  intros H. unfold sorted.
  assert (G : forall rest racc,
             non_descending (rev racc ++ rest) = true ->
             fold_left (fun racc x => insert_sorted x racc) rest racc = rev rest ++ racc).
  { induction rest as [|x rest IH]; intros racc Hr; simpl; [reflexivity|].
    assert (Hi : insert_sorted x racc = x :: racc).
    { destruct racc as [|y racc]; [reflexivity|]. simpl.
      simpl in Hr. rewrite <- app_assoc in Hr. simpl in Hr.
      now rewrite (non_descending_adjacent _ _ _ _ Hr). }
    rewrite Hi, IH.
    - now rewrite <- app_assoc.
    - simpl. now rewrite <- app_assoc. }
  rewrite (G items []) by exact H.
  now rewrite app_nil_r, rev_involutive.
Qed.

(** X12. [sorted] returns unchanged a list in which no item has a key less
    than the key of the item before it; in particular items whose keys are
    all equal keep their order, so that among tickers of equal correlation
    the one inserted first comes first. *)
Theorem sorted_keeps_order (items : list (string * float)) :
  (non_descending items = true -> sorted items = items) /\
  (forall v, v <> NaN -> Forall (fun item => snd item = v) items -> sorted items = items).
Proof.
  split; [apply sorted_of_run|].
  intros v Hv Hall. apply sorted_of_run.
  induction Hall as [|x l Hx Hl IH]; [reflexivity|].
  destruct Hl as [|y l Hy Hl]; [reflexivity|].
  change (negb (Float.ltb (snd y) (snd x)) && non_descending (y :: l) = true).
  rewrite IH, Hx, Hy, ltb_irrefl. reflexivity.
Qed.

Lemma sorted_keeps_order_witness :
  sorted [("A"%string, Fin 0); ("B"%string, Fin 0); ("A2"%string, NaN)]
  = [("A"%string, Fin 0); ("B"%string, Fin 0); ("A2"%string, NaN)].
Proof.
  apply (proj1 (sorted_keeps_order _)). simpl.
  destruct (Rlt_dec 0 0); [exfalso; lra|reflexivity].
Defined.

Lemma market_pair_loop (w : world) :
  exists results w',
    ticker_loop Sample.market Sample.start_date Sample.end_date
                Sample.rising_returns ["UP"%string; "DOWN"%string] [] [] w
    = (Ret (results, [("UP"%string, Fin 1); ("DOWN"%string, Fin (-1))]), w').
Proof.
  cbn [ticker_loop]. unfold bind.
  rewrite market_process_up. cbv beta iota zeta.
  rewrite (market_process "DOWN" Sample.slowing (Fin (-1)))
    by (reflexivity || discriminate || (intros; rewrite slowing_returns_eq;
                                        apply market_correlation_down)).
  cbv beta iota zeta. unfold ret.
  eexists. eexists. reflexivity.
Qed.

Lemma ranking_without_nan_witness :
  exists body lo hi w2,
    get_stock_analysis Sample.market Sample.start_date Sample.end_date
                       (Some ["UP"%string; "DOWN"%string]) []
    = (Resp200 body, w2) /\
    In (lowestCorrTicker body, lo) [("UP"%string, Fin 1); ("DOWN"%string, Fin (-1))] /\
    In (highestCorrTicker body, hi) [("UP"%string, Fin 1); ("DOWN"%string, Fin (-1))] /\
    Float.ltb (Fin 1) lo = false /\ Float.ltb hi (Fin (-1)) = false.
Proof.
  destruct (market_pair_loop
              ([] ++ [Probe "^IXIC"; Monthly "^IXIC" Sample.start_date Sample.end_date]))
    as (results & w2 & El).
  assert (Hdef : Forall key_defined [("UP"%string, Fin 1); ("DOWN"%string, Fin (-1))]).
  { repeat constructor; discriminate. }
  destruct (ranking_without_nan Sample.market _ _ ["UP"%string; "DOWN"%string] [] _ w2
              Sample.rising_returns (Some "^IXIC"%string) results _
              (market_benchmark []) rising_returns_nonempty El ltac:(discriminate) Hdef)
    as (body & lo & hi & E & Hlo & Hhi & Hall).
  exists body, lo, hi, w2. split; [exact E|]. split; [exact Hlo|]. split; [exact Hhi|].
  split.
  - exact (proj1 (Hall "UP"%string (Fin 1) (or_introl eq_refl))).
  - exact (proj2 (Hall "DOWN"%string (Fin (-1)) (or_intror (or_introl eq_refl)))).
Defined.

(** ** The size of the aligned frame *)

Lemma joined_index_nodup (a b : Series) :
  NoDup (Pandas.index a) -> NoDup (Pandas.index b) ->
  NoDup (Pandas.index a
           ++ filter (fun d => negb (existsb (Z.eqb d) (Pandas.index a))) (Pandas.index b)).
Proof.
  intros Ha Hb. apply NoDup_app; [exact Ha|now apply NoDup_filter|].
  intros d Hd Hf. apply filter_In in Hf as [_ Hf].
  apply negb_true_iff in Hf.
  assert (Ht : existsb (Z.eqb d) (Pandas.index a) = true).
  { apply existsb_exists. exists d. split; [exact Hd|apply Z.eqb_refl]. }
  congruence.
Qed.

(** X13. With distinct dates on each side, the aligned frame has distinct
    dates and at most as many rows as the shorter series, and when the two
    series share no date it is empty and the correlation is 0.0. *)
Theorem aligned_frame_size (a b : Series) (joined : Frame2) :
  NoDup (Pandas.index a) -> NoDup (Pandas.index b) ->
  Pandas.concat_axis1 a b = Ret joined ->
  NoDup (Pandas.index (Pandas.dropna2 joined)) /\
  (length (Pandas.dropna2 joined) <= Nat.min (length a) (length b))%nat /\
  ((forall d, In d (Pandas.index a) -> ~ In d (Pandas.index b)) ->
   Pandas.dropna2 joined = [] /\
   forall w, ticker_correlation a b w = (Ret (Fin 0), w)).
Proof.
  intros Ha Hb E.
  pose proof (aligned_inner_join a b joined Ha Hb E) as Hj.
  assert (Hn : NoDup (Pandas.index (Pandas.dropna2 joined))).
  { unfold Pandas.dropna2. apply filter_index_nodup.
    rewrite (concat_axis1_unique a b Ha Hb) in E. injection E as <-.
    unfold Pandas.index. rewrite map_map. simpl. rewrite map_id.
    now apply joined_index_nodup. }
  assert (Hrow : forall d, In d (Pandas.index (Pandas.dropna2 joined)) ->
                           In d (Pandas.index a) /\ In d (Pandas.index b)).
  { intros d Hd. apply in_map_iff in Hd as ([d' [x y]] & <- & Hin).
    apply Hj in Hin as (Hx & Hy & _).
    split; [now apply (in_map fst) in Hx|now apply (in_map fst) in Hy]. }
  split; [exact Hn|]. split.
  - rewrite <- (length_map fst (Pandas.dropna2 joined)).
    rewrite <- (length_map fst a), <- (length_map fst b).
    apply Nat.min_glb; apply NoDup_incl_length; try exact Hn;
      intros d Hd; now apply Hrow in Hd.
  - intros Hdisj.
    assert (Hnil : Pandas.dropna2 joined = []).
    { destruct (Pandas.dropna2 joined) as [|[d xy] rest] eqn:Er; [reflexivity|].
      exfalso. destruct (Hrow d) as [Hda Hdb]; [now left|]. exact (Hdisj d Hda Hdb). }
    split; [exact Hnil|]. intros w.
    destruct a as [|ra a']; [apply ticker_correlation_empty; now left|].
    destruct b as [|rb b']; [apply ticker_correlation_empty; now right|].
    rewrite (ticker_correlation_joined _ _ joined w) by (discriminate || exact E).
    now rewrite Hnil.
Qed.

Lemma aligned_frame_size_witness :
  exists joined,
    Pandas.concat_axis1 Sample.recent_returns Sample.rising_returns = Ret joined /\
    (length (Pandas.dropna2 joined) <= 1)%nat.
Proof.
  destruct sample_nodup as (Hr & _ & Hn).
  eexists. split; [exact (concat_axis1_unique _ _ Hn Hr)|].
  exact (proj1 (proj2 (aligned_frame_size _ _ _ Hn Hr (concat_axis1_unique _ _ Hn Hr)))).
Defined.

(** ** The error responses *)






(** X15. A 400 is sent only when the series of both benchmark candidates are
    empty: its message is the benchmark message, and the requests made are
    the two fetches, ^IXIC then ^GSPC. *)
Theorem response_400_cause (P : Provider) (sd ed : string) (data : option (list string))
        (w w' : world) (msg : string) :
  get_stock_analysis P sd ed data w = (Resp400 msg, w') ->
  msg = benchmark_error /\
  exists tickers c1 c2,
    data = Some tickers /\
    get_monthly_returns P "^IXIC" sd ed w = (Ret [], w ++ c1) /\
    get_monthly_returns P "^GSPC" sd ed (w ++ c1) = (Ret [], w ++ c1 ++ c2) /\
    w' = w ++ c1 ++ c2.
Proof.
  destruct data as [tickers|]; [|discriminate].
  destruct (get_monthly_returns_total P "^IXIC" sd ed w) as (r1 & c1 & E1 & _).
  destruct (get_monthly_returns_total P "^GSPC" sd ed (w ++ c1)) as (r2 & c2 & E2 & _).
  rewrite <- app_assoc in E2.
  unfold get_stock_analysis, analysis, request_tickers, ret.
  unfold bind at 1. unfold bind at 1. simpl benchmark_loop. unfold bind at 1.
  rewrite E1.
  destruct r1 as [|row1 r1].
  - simpl. unfold bind at 1. rewrite E2.
    destruct r2 as [|row2 r2].
    + simpl. intros E. injection E as <- <-.
      split; [reflexivity|]. exists tickers, c1, c2. auto.
    + simpl. unfold bind at 1.
      destruct (ticker_loop _ _ _ _ _ _ _ _) as [[[results cs]|e] w2]; [|discriminate].
      unfold bind. destruct (sorted cs); destruct tickers; simpl; discriminate.
  - simpl. unfold bind at 1.
    destruct (ticker_loop _ _ _ _ _ _ _ _) as [[[results cs]|e] w2]; [|discriminate].
    unfold bind. destruct (sorted cs); destruct tickers; simpl; discriminate.
Qed.

Lemma response_400_cause_witness :
  benchmark_error = benchmark_error /\
  exists tickers c1 c2,
    Some ["UP"%string] = Some tickers /\
    get_monthly_returns Sample.outage "^IXIC" Sample.start_date Sample.end_date []
    = (Ret [], [] ++ c1) /\
    get_monthly_returns Sample.outage "^GSPC" Sample.start_date Sample.end_date ([] ++ c1)
    = (Ret [], [] ++ c1 ++ c2) /\
    [Probe "^IXIC"; Probe "^GSPC"] = [] ++ c1 ++ c2.
Proof.
  apply (response_400_cause Sample.outage Sample.start_date Sample.end_date
           (Some ["UP"%string]) []).
  reflexivity.
Defined.







(** ** Returns and prices *)





(** ** A ticker that moves like the benchmark *)





(** ** The sign of the Sharpe ratio *)






(** ** Sorting, as a whole *)

(** X20. [sorted] returns the items it was given, each as many times as it
    occurs, and when no key is NaN it returns them in ascending order of
    the keys: no item is followed, at any distance, by an item of smaller
    key. *)
Theorem sorted_spec (items : list (string * float)) :
  Permutation (sorted items) items /\
  length (sorted items) = length items /\
  (Forall key_defined items -> StronglySorted key_le (sorted items)).
Proof.
  split; [apply sorted_perm|]. split.
  - apply Permutation_length. apply sorted_perm.
  - apply sorted_ascending.
Qed.

Lemma sorted_spec_witness :
  StronglySorted key_le
    (sorted [("UP"%string, Fin 1); ("DOWN"%string, Fin (-1)); ("FLAT"%string, Fin 0)]).
Proof.
  apply (proj2 (proj2 (sorted_spec _))).
  repeat constructor; discriminate.
Defined.

(** ** A request whose tickers all fail *)

Lemma ticker_loop_all_fail (P : Provider) (sd ed : string) (bench : Series) :
  forall tickers results correlations w,
    Forall (fetch_fails P sd ed) tickers ->
    exists w',
      ticker_loop P sd ed bench tickers results correlations w
      = (Ret (results ++ map failed_result tickers,
              fold_left (fun d t => dict_set t (Fin 0) d) tickers correlations), w').
Proof.
  induction tickers as [|t tickers IH]; intros results correlations w Hall.
  - exists w. simpl. now rewrite app_nil_r.
  - inversion Hall as [|? ? Ht Hrest]; subst.
    destruct (process_ticker_failed P sd ed bench t w (Ht w)) as (w1 & Ep).
    destruct (IH (results ++ [failed_result t]) (dict_set t (Fin 0) correlations) w1 Hrest)
      as (w' & El).
    exists w'. simpl. unfold bind. rewrite Ep. cbv beta iota zeta.
    unfold failed_result in El. rewrite El, <- app_assoc. reflexivity.
Qed.

Lemma dict_set_zero (k : string) (d : dict) :
  Forall (fun item => snd item = Fin 0) d ->
  Forall (fun item => snd item = Fin 0) (dict_set k (Fin 0) d).
Proof.
  induction 1 as [|[k' v'] d Hv Hd IH]; simpl; [repeat constructor|].
  destruct (String.eqb k k'); constructor; auto.
Qed.

Lemma dict_set_head (k : string) (v : float) (d : dict) (k0 : string) :
  hd_error (map fst d) = Some k0 -> hd_error (map fst (dict_set k v d)) = Some k0.
Proof.
  destruct d as [|[k' v'] d]; simpl; [discriminate|].
  destruct (String.eqb k k'); simpl; auto.
Qed.

Lemma fold_dict_set_zero (tickers : list string) :
  forall d,
    Forall (fun item => snd item = Fin 0) d ->
    Forall (fun item => snd item = Fin 0)
           (fold_left (fun d t => dict_set t (Fin 0) d) tickers d).
Proof.
  induction tickers as [|t tickers IH]; intros d Hd; simpl; [exact Hd|].
  apply IH. now apply dict_set_zero.
Qed.

Lemma fold_dict_set_head (tickers : list string) (k0 : string) :
  forall d,
    hd_error (map fst d) = Some k0 ->
    hd_error (map fst (fold_left (fun d t => dict_set t (Fin 0) d) tickers d)) = Some k0.
Proof.
  induction tickers as [|t tickers IH]; intros d Hd; simpl; [exact Hd|].
  apply IH. now apply dict_set_head.
Qed.

Lemma zeros_non_descending (d : dict) :
  Forall (fun item => snd item = Fin 0) d -> non_descending d = true.
Proof.
  induction 1 as [|x d Hx Hd IH]; [reflexivity|].
  destruct Hd as [|y d Hy Hd]; [reflexivity|].
  change (negb (Float.ltb (snd y) (snd x)) && non_descending (y :: d) = true).
  rewrite IH, Hx, Hy, ltb_irrefl. reflexivity.
Qed.

(** X21. When the benchmark resolves and the fetch fails for every requested
    ticker, the response is still a 200: it has one all-zero result per
    ticker, in request order, and, all correlations being equal, the first
    requested ticker is named as the lowest. *)
Theorem all_tickers_fail (P : Provider) (sd ed : string) (t0 : string) (rest : list string)
        (w w1 : world) (bench : Series) (used : option string) :
  benchmark_loop P sd ed benchmark_options Pandas.empty_series None w
    = (Ret (bench, used), w1) ->
  bench <> [] ->
  Forall (fetch_fails P sd ed) (t0 :: rest) ->
  exists body w2,
    get_stock_analysis P sd ed (Some (t0 :: rest)) w = (Resp200 body, w2) /\
    stockData body = map failed_result (t0 :: rest) /\
    benchmarkUsed body = used /\
    lowestCorrTicker body = t0.
Proof.
  intros Eb Hne Hall.
  destruct (ticker_loop_all_fail P sd ed bench (t0 :: rest) [] [] w1 Hall) as (w2 & El).
  set (cs := fold_left (fun d t => dict_set t (Fin 0) d) (t0 :: rest) []) in *.
  pose proof (analysis_success P sd ed (t0 :: rest) w w1 w2 bench used _ cs t0
                Eb Hne El eq_refl) as E.
  assert (Hz : Forall (fun item => snd item = Fin 0) cs).
  { unfold cs. apply fold_dict_set_zero. constructor. }
  assert (Hh : hd_error (map fst cs) = Some t0).
  { unfold cs. simpl. apply fold_dict_set_head. reflexivity. }
  rewrite (sorted_of_run cs (zeros_non_descending cs Hz)) in E.
  eexists. exists w2. split; [exact E|]. simpl.
  split; [reflexivity|]. split; [reflexivity|].
  destruct cs as [|[k v] cs']; simpl in *; congruence.
Qed.

Lemma market_err_fails :
  fetch_fails Sample.market Sample.start_date Sample.end_date "ERR".
Proof. intros w. rewrite get_monthly_returns_unfold. reflexivity. Qed.

Lemma all_tickers_fail_witness :
  exists body w2,
    get_stock_analysis Sample.market Sample.start_date Sample.end_date
                       (Some ["GONE"%string; "ERR"%string]) []
    = (Resp200 body, w2) /\
    stockData body = [failed_result "GONE"; failed_result "ERR"] /\
    benchmarkUsed body = Some "^IXIC"%string /\
    lowestCorrTicker body = "GONE"%string.
Proof.
  apply (all_tickers_fail Sample.market _ _ "GONE" ["ERR"%string] [] _
           Sample.rising_returns (Some "^IXIC"%string)
           (market_benchmark []) rising_returns_nonempty).
  constructor; [apply market_gone_fails; reflexivity|].
  constructor; [apply market_err_fails|constructor].
Defined.
